(** * Section-scoped patch merge of the writegeist AI service

    Shallow embedding of [extract_section] and [apply_patch_to_section]
    (ai-service/main.py) together with the string primitives of the Python
    runtime they are written with, and of the endpoints and storage
    functions of the same file that call them.

    A Python [str] is a sequence of Unicode code points: it is modelled as a
    list of code points ([N]).  Lines, slices and indices are lists and
    natural numbers.  The whitespace class is the runtime's own table.  The
    case tables of the runtime are not part of the repository: they are the
    two operations of the class [Casing], and under [re.I] a literal of the
    pattern matches a character when both have the same lower-case
    character; an instance for the ASCII letters is used wherever terms are
    evaluated.  The functions print progress messages, which are not
    modelled: every [return markdown] of the source is the document
    returned unchanged. *)

From Stdlib Require Import NArith ZArith QArith Lia String Ascii.
From Stdlib Require Import Floats.SpecFloat.
From stdpp Require Import base list gmap.
Close Scope Q_scope.

Abbreviation str := (list N).

(** ** Characters *)

Definition NL : N := 10.       (* '\n' *)
Definition CR : N := 13.       (* '\r' *)
Definition SPACE : N := 32.    (* ' '  *)
Definition HASH : N := 35.     (* '#'  *)
Definition LPAREN : N := 40.   (* '('  *)
Definition STAR : N := 42.     (* '*'  *)
Definition EMDASH : N := 8212. (* U+2014 *)

(** The literal ['* '] tested by [startswith]. *)
Definition bullet : str := [STAR; SPACE].

(** [str.isspace] on one code point; also the class [\s] of [re] on [str]
    patterns, and the separators of [str.strip()] and [str.split()]. *)
Definition isspace (c : N) : bool :=
  ((9 <=? c) && (c <=? 13) || (28 <=? c) && (c <=? 32) || (c =? 133)
   || (c =? 160) || (c =? 5760) || (8192 <=? c) && (c <=? 8202)
   || (c =? 8232) || (c =? 8233) || (c =? 8239) || (c =? 8287)
   || (c =? 12288))%N.

(** Case tables of the runtime: [lower] is [str.lower()], [tolower] is the
    per-character lower-case mapping with which [re] compares a literal
    under [re.I]. *)
Class Casing := {
  lower : str -> str;
  tolower : N -> N
}.

(** ** String primitives *)

(** Truth value of a string in a condition: non-empty. *)
Definition truthy (s : str) : bool :=
  match s with [] => false | _ :: _ => true end.

Fixpoint drop_while {A} (f : A -> bool) (l : list A) : list A :=
  match l with
  | [] => []
  | x :: l' => if f x then drop_while f l' else l
  end.

Definition drop_while_end {A} (f : A -> bool) (l : list A) : list A :=
  reverse (drop_while f (reverse l)).

(** [s.strip()] *)
Definition strip (s : str) : str :=
  drop_while_end isspace (drop_while isspace s).

(** [s.split(d)] for a one-character separator [d]. *)
Fixpoint split_char (d : N) (s : str) : list str :=
  match s with
  | [] => [[]]
  | c :: s' =>
      if (c =? d)%N then [] :: split_char d s'
      else match split_char d s' with
           | l :: ls => (c :: l) :: ls
           | [] => [[c]]
           end
  end.

(** [s.split('\n')] *)
Definition split_nl (s : str) : list str := split_char NL s.

(** ['\n'.join(ls)] *)
Fixpoint join_nl (ls : list str) : str :=
  match ls with
  | [] => []
  | [l] => l
  | l :: ls' => l ++ NL :: join_nl ls'
  end.

(** [s.startswith(p)] *)
Fixpoint startswith (s p : str) {struct p} : bool :=
  match p, s with
  | [], _ => true
  | c :: p', d :: s' => (c =? d)%N && startswith s' p'
  | _ :: _, [] => false
  end.

(** [needle in hay] on strings: [needle] occurs as a contiguous run. *)
Fixpoint contains (needle hay : str) : bool :=
  startswith hay needle
  || match hay with
     | [] => false
     | _ :: hay' => contains needle hay'
     end.

(** [s.split()]: the maximal runs of non-whitespace characters; [acc] holds
    the current run, reversed. *)
Fixpoint words_from (acc s : str) : list str :=
  match s with
  | [] => if truthy acc then [reverse acc] else []
  | c :: s' =>
      if isspace c
      then (if truthy acc then reverse acc :: words_from [] s'
            else words_from [] s')
      else words_from (c :: acc) s'
  end.

Definition words (s : str) : list str := words_from [] s.

(** [l[a:b]] for indices [0 <= a], [0 <= b]. *)
Definition slice {A} (l : list A) (a b : nat) : list A :=
  take (b - a) (drop a l).

(** Index of the first element satisfying [f]: a [for ... break] scan. *)
Fixpoint find_index {A} (f : A -> bool) (l : list A) : option nat :=
  match l with
  | [] => None
  | x :: l' => if f x then Some 0 else S <$> find_index f l'
  end.

(** ** The two header patterns *)

(** [re.match(r'^\s*##\s+', line)] *)
Definition is_header (line : str) : bool :=
  match drop_while isspace line with
  | a :: b :: c :: _ => (a =? HASH)%N && (b =? HASH)%N && isspace c
  | _ => false
  end.

Section WithCasing.
Context `{Casing}.

(** One literal of an escaped name against one character, under [re.I]. *)
Definition re_ignorecase (p c : N) : bool := (tolower c =? tolower p)%N.

(** The escaped name matched as a literal at the head of [s]; the rest of
    [s] when it matches. *)
Fixpoint match_literal (pat s : str) : option str :=
  match pat, s with
  | [], _ => Some s
  | p :: pat', c :: s' =>
      if re_ignorecase p c then match_literal pat' s' else None
  | _ :: _, [] => None
  end.

(** [<name>\s*$] at the head of [r]. *)
Definition match_name_tail (name r : str) : bool :=
  match match_literal name r with
  | Some t => forallb isspace t
  | None => false
  end.

(** [\s+<name>\s*$] at the head of [r]: [\s+] takes one whitespace
    character and then either more of them or the name. *)
Fixpoint match_spaces_name (name r : str) : bool :=
  match r with
  | [] => false
  | c :: r' =>
      isspace c && (match_spaces_name name r' || match_name_tail name r')
  end.

(** [re.match(rf'^\s*##\s+{re.escape(section_name)}\s*$', line, re.I)] *)
Definition is_section_header (section_name line : str) : bool :=
  match drop_while isspace line with
  | a :: b :: r =>
      (a =? HASH)%N && (b =? HASH)%N && match_spaces_name section_name r
  | _ => false
  end.

(** First loop of both functions: index of the first line that is the
    header of [section_name]. *)
Definition find_section (section_name : str) (lines : list str) : option nat :=
  find_index (is_section_header section_name) lines.

(** Second loop of both functions: index of the next header line at or after
    [section_start], or [len(lines)]. *)
Definition find_section_end (lines : list str) (section_start : nat) : nat :=
  match find_index is_header (drop section_start lines) with
  | Some k => section_start + k
  | None => length lines
  end.

(** ** extract_section *)

(** [not line.strip()] *)
Definition blank (line : str) : bool := negb (truthy (strip line)).

Definition extract_section (markdown section_name : str) : str :=
  let lines := split_nl markdown in
  match find_section section_name lines with
  | None => []
  | Some i =>
      let section_start := i + 1 in
      let section_end := find_section_end lines section_start in
      let content_lines := slice lines section_start section_end in
      join_nl (drop_while_end blank (drop_while blank content_lines))
  end.

(** ** apply_patch_to_section *)

(** A line that is a bullet after [strip()], and its item text
    [line.strip()[2:].strip()]. *)
Definition bullet_item (line : str) : option str :=
  let stripped := strip line in
  if startswith stripped bullet then Some (strip (drop 2 stripped)) else None.

(** [item.split('(')[0].split('—')[0].strip()] *)
Definition item_name (item : str) : str :=
  strip (hd [] (split_char EMDASH (hd [] (split_char LPAREN item)))).

(** [set(item.lower().split())] *)
Definition word_set (item : str) : gset str :=
  list_to_set (words (lower item)).

(** [existing_item.lower() == new_item.lower()] *)
Definition exact_match (new_item existing_item : str) : bool :=
  bool_decide (lower existing_item = lower new_item).

(** [new_name.lower() == existing_name.lower() and len(new_name) > 2] *)
Definition name_match (new_item existing_item : str) : bool :=
  let new_name := item_name new_item in
  let existing_name := item_name existing_item in
  bool_decide (lower new_name = lower existing_name)
  && (2 <? length new_name).

(** [similarity > 0.8] for [similarity = len(x) / len(y)].  The true division
    of two ints is their quotient rounded to the nearest double, ties to
    even, and [0.8] denotes the double 7205759403792794 * 2^-53, whose
    mantissa is even: the rounded quotient is above it exactly when the
    quotient is above the midpoint 14411518807585589 * 2^-54 between that
    double and the next one. *)
Definition exceeds_point8 (x y : nat) : bool :=
  (14411518807585589 * Z.of_nat y <? 18014398509481984 * Z.of_nat x)%Z.

Definition similarity_match (new_item existing_item : str) : bool :=
  (10 <? length new_item) && (10 <? length existing_item)
  && (let new_words := word_set new_item in
      let existing_words := word_set existing_item in
      (0 <? size new_words) && (0 <? size existing_words)
      && exceeds_point8 (size (new_words ∩ existing_words))
                        (size (new_words ∪ existing_words))).

(** The three tests made on one incoming item and one existing item, in the
    order of the source; each of them returns the document unchanged. *)
Definition item_duplicate (new_item existing_item : str) : bool :=
  exact_match new_item existing_item
  || name_match new_item existing_item
  || similarity_match new_item existing_item.

(** The nested loops of the bullet branch: some incoming bullet line and
    some bullet line of the section make one of the tests succeed. *)
Definition bullet_duplicate (new_lines_to_add section_lines : list str) : bool :=
  existsb (fun new_line =>
    match bullet_item new_line with
    | None => false
    | Some new_item =>
        existsb (fun line =>
          match bullet_item line with
          | None => false
          | Some existing_item => item_duplicate new_item existing_item
          end) section_lines
    end) new_lines_to_add.

(** [[line.strip() for line in text.split('\n') if line.strip()]] *)
Definition stripped_lines (text : str) : list str :=
  filter (fun l => truthy l) (map strip (split_nl text)).

(** The loop of the [else] branch. *)
Definition prose_duplicate (new_content_clean existing_content : str) : bool :=
  let new_lines_to_check := stripped_lines new_content_clean in
  let existing_lines := stripped_lines existing_content in
  existsb (fun new_line => bool_decide (new_line ∈ existing_lines))
          new_lines_to_check.

(** [lines[-1].strip()] guarded by [lines]. *)
Definition last_line_nonblank (lines : list str) : bool :=
  match last lines with
  | Some l => truthy (strip l)
  | None => false
  end.

Definition apply_patch_to_section (markdown section_name new_content : str) : str :=
  let lines := split_nl markdown in
  match find_section section_name lines with
  | None =>
      join_nl (lines
               ++ (if last_line_nonblank lines then [[]] else [])
               ++ [[HASH; HASH; SPACE] ++ section_name]
               ++ [[]]
               ++ split_nl new_content)
  | Some section_header_index =>
      let section_start := section_header_index + 1 in
      let section_end := find_section_end lines section_start in
      let existing_content :=
        strip (join_nl (slice lines section_start section_end)) in
      let new_content_clean := strip new_content in
      if contains new_content_clean existing_content then markdown
      else if (if startswith new_content_clean bullet
               then bullet_duplicate (split_nl new_content_clean)
                                     (slice lines section_start section_end)
               else prose_duplicate new_content_clean existing_content)
      then markdown
      else
        let new_lines := take section_end lines in
        let new_lines :=
          if truthy new_content_clean
          then (new_lines
                ++ (if (section_start <? section_end)
                       && last_line_nonblank (take section_end lines)
                    then [[]] else [])
                ++ split_nl new_content)
          else new_lines in
        let new_lines :=
          if section_end <? length lines
          then new_lines ++ drop section_end lines
          else new_lines in
        join_nl new_lines
  end.

End WithCasing.

(** ** The ASCII instance, for evaluation *)

Definition ascii_tolower (c : N) : N :=
  if ((65 <=? c) && (c <=? 90))%N then (c + 32)%N else c.

#[export] Instance ascii_casing : Casing :=
  {| lower := map ascii_tolower; tolower := ascii_tolower |}.

(** A string literal of ASCII characters as a [str]. *)
Definition py (s : string) : str :=
  map N_of_ascii (list_ascii_of_string s).

Definition nl : str := [NL].
Definition emdash : str := [EMDASH].

(** ** The service around the two functions

    The endpoints read and write three files: the SQLite database
    [writegeist.db], whose table [project_pages] holds the document in the
    row of id 1, the file [last_update.txt], and the file
    [data/n8n_proposal.md].  They are the three fields of [world]; an
    endpoint is a function of the world that gives an answer and the next
    world.  A statement on the database either succeeds or raises: the
    state [Unusable] is a database on which every statement raises, and
    on the other states a statement raises only when its text parameter
    cannot be encoded as UTF-8.  The two text files can always be opened
    and written; writing a text that cannot be encoded raises and leaves
    the file empty; reading raises on a file whose bytes are not a text in
    the encoding of the locale.  [print] does not raise: the standard
    output and its error handler are the environment's.  The current
    time, in whole seconds, is an argument. *)

(** The text of [create_default_project_doc], also the fallback of
    [load_markdown]. *)
Definition default_markdown : str :=
  py "# My Project" ++ nl ++ nl ++ py "## Ideas-Notes" ++ nl ++ nl
  ++ py "## Setting" ++ nl ++ nl ++ py "## Full Outline" ++ nl ++ nl
  ++ py "## Characters".

Inductive database :=
  | NoFile                    (* the file does not exist *)
  | NoTable                   (* the file has no table [project_pages] *)
  | Rows (row : option str)   (* the markdown of the row of id 1, if any *)
  | Unusable.                 (* every statement raises *)

(** A file that is read as text. *)
Inductive text_file :=
  | Missing                   (* the file does not exist *)
  | Text (text : str)         (* the text that reading decodes *)
  | Undecodable.              (* bytes on which reading raises *)

Record world := {
  db : database;
  last_update_file : text_file;
  proposal_file : option str  (* the text last written, never read *)
}.

(** An answer: a body, or the status of an [HTTPException]. *)
Inductive response (A : Type) :=
  | Ok (body : A)
  | HttpError (status : nat).

Arguments Ok {A} body.
Arguments HttpError {A} status.

(** The model [Patch] of a request. *)
Record Patch := {
  section : str;
  h2 : option str;
  replace : str
}.

(** [str(n)] for an int. *)
Fixpoint digits (u : Decimal.uint) : str :=
  match u with
  | Decimal.Nil => []
  | Decimal.D0 u => 48%N :: digits u
  | Decimal.D1 u => 49%N :: digits u
  | Decimal.D2 u => 50%N :: digits u
  | Decimal.D3 u => 51%N :: digits u
  | Decimal.D4 u => 52%N :: digits u
  | Decimal.D5 u => 53%N :: digits u
  | Decimal.D6 u => 54%N :: digits u
  | Decimal.D7 u => 55%N :: digits u
  | Decimal.D8 u => 56%N :: digits u
  | Decimal.D9 u => 57%N :: digits u
  end.

Definition str_of_int (n : Z) : str :=
  match Z.to_int n with
  | Decimal.Pos u => digits u
  | Decimal.Neg u => 45%N :: digits u
  end.

(** [INSERT OR REPLACE] of the default text; an exception is caught and
    the text is returned all the same. *)
Definition create_default_project_doc (d : database) : str * database :=
  match d with
  | Unusable => (default_markdown, Unusable)
  | _ => (default_markdown, Rows (Some default_markdown))
  end.

(** The document and the database after the call.  The [SELECT] raises
    when the table is missing; every exception is caught and gives the
    fallback text. *)
Definition load_markdown (d : database) : str * database :=
  match d with
  | NoFile => create_default_project_doc d
  | NoTable => (default_markdown, d)
  | Rows (Some markdown_content) => (markdown_content, d)
  | Rows None => create_default_project_doc d
  | Unusable => (default_markdown, d)
  end.

(** A string that the [utf-8] codec encodes: one without a surrogate
    code point. *)
Definition utf8_encodable (s : str) : bool :=
  forallb (fun c => negb ((55296 <=? c) && (c <=? 57343))%N) s.

(** How a call ends. *)
Inductive outcome := Returned | Raised.

(** [CREATE TABLE IF NOT EXISTS], then [INSERT OR REPLACE] of the row of
    id 1.  The table is made before the parameter of the insertion is
    bound; a text that cannot be encoded raises there, and the row is not
    written. *)
Definition save_markdown_to_database (markdown : str) (d : database)
  : outcome * database :=
  match d with
  | Unusable => (Raised, Unusable)
  | NoFile | NoTable =>
      if utf8_encodable markdown then (Returned, Rows (Some markdown))
      else (Raised, Rows None)
  | Rows row =>
      if utf8_encodable markdown then (Returned, Rows (Some markdown))
      else (Raised, Rows row)
  end.

(** [LAST_UPDATE_FILE.write_text(str(int(time.time())))] *)
Definition update_last_modified (now : Z) (w : world) : world :=
  {| db := db w;
     last_update_file := Text (str_of_int now);
     proposal_file := proposal_file w |}.

(** What reading in text mode makes of the text of a file: ["\r\n"] and
    ["\r"] become ["\n"]. *)
Fixpoint universal_newlines (s : str) : str :=
  match s with
  | [] => []
  | c :: s' =>
      if (c =? CR)%N
      then NL :: match s' with
                 | d :: s'' =>
                     if (d =? NL)%N then universal_newlines s''
                     else universal_newlines s'
                 | [] => []
                 end
      else c :: universal_newlines s'
  end.

(** The value of ["last_updated"] in the answer:
    [LAST_UPDATE_FILE.read_text().strip()], or ["0"] without the file and
    when reading raises. *)
Definition get_last_updated (w : world) : str :=
  match last_update_file w with
  | Text text => strip (universal_newlines text)
  | Missing => py "0"
  | Undecodable => py "0"
  end.

(** [upload_project_content] for a body whose ["markdown"] entry, when
    there is one, is a string ([None]: no such entry).  The 400 is raised
    inside the [try] and caught by its [except Exception], as is what
    [save_markdown_to_database] raises.  The body of the answer is
    ["content_length"]. *)
Definition upload_project_content (now : Z) (content : option str) (w : world)
  : response nat * world :=
  let markdown_content := default [] content in
  if negb (truthy markdown_content) then (HttpError 500, w)
  else match save_markdown_to_database markdown_content (db w) with
       | (Raised, d) =>
           (HttpError 500,
            {| db := d;
               last_update_file := last_update_file w;
               proposal_file := proposal_file w |})
       | (Returned, d) =>
           (Ok (length markdown_content),
            update_last_modified now
              {| db := d;
                 last_update_file := last_update_file w;
                 proposal_file := proposal_file w |})
       end.

Section Service.
Context `{Casing}.

(** The value of ["markdown"] in the answer, and the next world. *)
Definition get_project_section (section_name : str) (w : world)
  : response str * world :=
  let (markdown_content, d) := load_markdown (db w) in
  (Ok (extract_section markdown_content section_name),
   {| db := d;
      last_update_file := last_update_file w;
      proposal_file := proposal_file w |}).

(** The text written to the proposal file. *)
Definition proposal_text (patch : Patch) : str :=
  py "### " ++ section patch ++ py " / "
  ++ (match h2 patch with
      | Some h => if truthy h then h else py "(root)"
      | None => py "(root)"
      end)
  ++ nl ++ nl ++ replace patch.

(** The body of the answer is the pair of ["status"] and ["section"] (the
    third entry, the path of the proposal file, is a constant).  What the
    save raises is answered by 500 before anything else is written; what
    the write of the proposal file raises is answered by 500 after the
    save and the update of the last-updated file. *)
Definition accept_patch (now : Z) (patch : Patch) (w : world)
  : response (str * str) * world :=
  let (current_markdown, d) := load_markdown (db w) in
  let updated_markdown :=
    apply_patch_to_section current_markdown (section patch) (replace patch) in
  match save_markdown_to_database updated_markdown d with
  | (Raised, d') =>
      (HttpError 500,
       {| db := d';
          last_update_file := last_update_file w;
          proposal_file := proposal_file w |})
  | (Returned, d') =>
      let w' := update_last_modified now
                  {| db := d';
                     last_update_file := last_update_file w;
                     proposal_file := proposal_file w |} in
      if utf8_encodable (proposal_text patch)
      then (Ok (py "applied", section patch),
            {| db := db w';
               last_update_file := last_update_file w';
               proposal_file := Some (proposal_text patch) |})
      else (HttpError 500,
            {| db := db w';
               last_update_file := last_update_file w';
               proposal_file := Some [] |})
  end.

End Service.

(** ** Vocabulary of the statements *)

Section TrimDefs.
Context {A : Type} (f : A -> bool).

(** Both ends trimmed, as [strip] does with characters and
    [extract_section] with blank lines. *)
Definition trim (l : list A) : list A := drop_while_end f (drop_while f l).

(** No element to drop at the front. *)
Definition no_lead (l : list A) : Prop :=
  match l with [] => True | x :: _ => f x = false end.

(** Nothing to trim at either end. *)
Definition tight (l : list A) : Prop := no_lead l /\ no_lead (reverse l).

End TrimDefs.

(** The content of a text with its leading and trailing blank lines
    removed: the normal form that [extract_section] returns. *)
Definition strip_blank_lines (text : str) : str :=
  join_nl (trim blank (split_nl text)).

(** Jaccard similarity of two sets of words, as a rational number (0 when
    both sets are empty). *)
Definition jaccard (a b : gset str) : Q :=
  Z.of_nat (size (a ∩ b)) # Pos.of_nat (size (a ∪ b)).

(** The same comparison computed with the binary64 operations of the
    standard library: both sizes converted, divided, and compared with the
    double [0.8]. *)
Definition binary64_of_nat (n : nat) : spec_float :=
  binary_normalize 53 1024 (Z.of_nat n) 0 false.

Definition binary64_point8 : spec_float :=
  S754_finite false 7205759403792794 (-53).

Definition binary64_exceeds_point8 (x y : nat) : bool :=
  SFltb binary64_point8
        (SFdiv 53 1024 (binary64_of_nat x) (binary64_of_nat y)).

(** [exceeds_point8] and the binary64 computation agree on every pair
    [x <= y] with [1 <= y <= n]. *)
Definition binary64_agrees (n : nat) : bool :=
  forallb (fun y =>
    forallb (fun x =>
      Bool.eqb (binary64_exceeds_point8 x y) (exceeds_point8 x y))
      (seq 0 (S y)))
    (seq 1 n).

(** The non-blank lines among [ls], each one trimmed. *)
Definition nonblank_trimmed (ls : list str) : list str :=
  filter (fun l => truthy l) (map strip ls).

(** The first non-blank line of a text (the empty line when all are
    blank). *)
Definition first_nonblank_line (text : str) : str :=
  hd [] (drop_while blank (split_nl text)).

(** The lines of [text] that are headers of some section. *)
Definition header_lines (text : str) : list str :=
  filter (fun l => is_header l) (split_nl text).

(** The rest of a document after a section: nothing, or lines that begin
    with a header line. *)
Definition section_closed (rest : list str) : bool :=
  match rest with
  | [] => true
  | z :: _ => is_header z
  end.

Section StatementDefs.
Context `{Casing}.

(** The document has a section that [section_name] selects. *)
Definition has_section (markdown section_name : str) : Prop :=
  is_Some (find_section section_name (split_nl markdown)).

(** End of the section that [section_name] selects: the index of the next
    header line, and the end of the document when there is no such
    section. *)
Definition target_end (markdown section_name : str) : nat :=
  match find_section section_name (split_nl markdown) with
  | Some i => find_section_end (split_nl markdown) (i + 1)
  | None => length (split_nl markdown)
  end.

(** The lines of the section that [section_name] selects. *)
Definition section_lines (markdown section_name : str) : list str :=
  match find_section section_name (split_nl markdown) with
  | Some i => slice (split_nl markdown) (i + 1) (target_end markdown section_name)
  | None => []
  end.

(** What the [if]s of the source decide on a document that has the section,
    past the containment test. *)
Definition duplicate_found (markdown section_name new_content : str) : bool :=
  if startswith (strip new_content) bullet
  then bullet_duplicate (split_nl (strip new_content))
                        (section_lines markdown section_name)
  else prose_duplicate (strip new_content)
                       (strip (join_nl (section_lines markdown section_name))).

(** The text that the merge builds when it accepts a patch: the patch
    lines are put at the end of the section, after a blank line when the
    last line of the section is not blank. *)
Definition appended (markdown section_name new_content : str) : str :=
  let lines := split_nl markdown in
  let e := target_end markdown section_name in
  join_nl (take e lines
           ++ (if last_line_nonblank (section_lines markdown section_name)
               then [[]] else [])
           ++ split_nl new_content
           ++ drop e lines).

(** The text that the merge builds when the document has no such section. *)
Definition created (markdown section_name new_content : str) : str :=
  join_nl (split_nl markdown
           ++ (if last_line_nonblank (split_nl markdown) then [[]] else [])
           ++ [HASH :: HASH :: SPACE :: section_name]
           ++ [[]]
           ++ split_nl new_content).

(** What the merge decides from the lines of the section alone: whether
    the patch is rejected, and the lines that it adds otherwise. *)
Definition rejected (body : list str) (new_content : str) : bool :=
  contains (strip new_content) (strip (join_nl body))
  || (if startswith (strip new_content) bullet
      then bullet_duplicate (split_nl (strip new_content)) body
      else prose_duplicate (strip new_content) (strip (join_nl body))).

Definition insertion (body : list str) (new_content : str) : list str :=
  if rejected body new_content then []
  else (if last_line_nonblank body then [[]] else []) ++ split_nl new_content.

(** A document cut around the section of a name: lines none of which is
    a header of the name, the header, lines none of which is a header
    line, and a rest that is empty or begins with a header line. *)
Definition section_cut (section_name : str) (lines A : list str) (h : str)
    (body Z : list str) : Prop :=
  lines = A ++ h :: body ++ Z
  /\ Forall (fun l => is_section_header section_name l = false) A
  /\ is_section_header section_name h = true
  /\ Forall (fun l => is_header l = false) body
  /\ section_closed Z = true.

(** The blank line put before appended lines: one when the last line of
    the section is not made of whitespace only, none otherwise. *)
Definition separator (body : list str) : list str :=
  match last body with
  | Some l => if forallb isspace l then [] else [[]]
  | None => []
  end.

(** None of the three tests on a pair of items succeeds: the item texts
    differ after lower-casing; the names differ after lower-casing or the
    incoming name has at most 2 characters; one of the items has at most
    10 characters or the similarity of the word sets is at most 4/5. *)
Definition tests_fail (new_item existing_item : str) : Prop :=
  lower existing_item <> lower new_item
  /\ (lower (item_name new_item) <> lower (item_name existing_item)
      \/ length (item_name new_item) <= 2)
  /\ (length new_item <= 10 \/ length existing_item <= 10
      \/ ((Z.of_nat (size (word_set new_item ∪ word_set existing_item))
           < 2 * 10 ^ 15)%Z
          /\ (jaccard (word_set new_item) (word_set existing_item)
              <= 4 # 5)%Q)).

(** The patch is settled in the text: the text has the section, and the
    lines of the section make the merge reject the patch. *)
Definition settled (text section_name new_content : str) : Prop :=
  exists A h body Z,
    split_nl text = A ++ h :: body ++ Z
    /\ find_section section_name A = None
    /\ is_section_header section_name h = true
    /\ forallb (fun l => negb (is_header l)) body = true
    /\ section_closed Z = true
    /\ rejected body new_content = true.

(** The merges of a list of patches into one section, one after the
    other. *)
Definition apply_patches (markdown section_name : str) (patches : list str)
  : str :=
  fold_left (fun text new_content =>
               apply_patch_to_section text section_name new_content)
            patches markdown.

End StatementDefs.

(** The lines from the start of a section up to the next header line: what
    the second loop of both functions keeps of the lines after a header. *)
Definition section_body (rest : list str) : list str :=
  match find_index is_header rest with
  | Some k => take k rest
  | None => rest
  end.

(** ** Documents and patches of the examples *)

Definition max_line : str :=
  py "* Max (shadow wizard) " ++ emdash ++ py " can control shadows".

Definition max_item : str :=
  py "Max (shadow wizard) " ++ emdash ++ py " can control shadows".

(** [## Characters], a blank line, one bullet. *)
Definition doc_characters : str := py "## Characters" ++ nl ++ nl ++ max_line.

Definition max_patch : str := py "* Max " ++ emdash ++ py " controls shadow creatures".

Definition max_patch_item : str := py "Max " ++ emdash ++ py " controls shadow creatures".

(** The same bullet, indented by two spaces. *)
Definition max_patch_indented : str := py "  " ++ max_patch.

Definition zara_patch : str :=
  py "* Zara (fire mage) " ++ emdash ++ py " can summon flames".

Definition doc_setting : str :=
  py "## Setting" ++ nl ++ nl ++ py "A quiet village by the sea.".

Definition village_patch : str :=
  py "A quiet village by the sea." ++ nl ++ py "The harbour is busy.".

(** Two items that share 4 of their 5 distinct words. *)
Definition doc_words : str := py "## A" ++ nl ++ py "* one two three four five".

Definition words_patch : str := py "* five one two three".

(** A patch that carries a header line of its own. *)
Definition doc_a : str := py "## A".

Definition header_patch : str := py "## B" ++ nl ++ py "x".

Definition zara_item : str :=
  py "Zara (fire mage) " ++ emdash ++ py " can summon flames".

(** Two sections with no blank line between them. *)
Definition doc_ab : str :=
  py "## A" ++ nl ++ py "x" ++ nl ++ py "## B" ++ nl ++ py "y".

Definition doc_tight : str :=
  py "## Characters" ++ nl ++ max_line ++ nl ++ doc_setting.

(** A patch with the header of another section of [doc_ab]. *)
Definition shadow_patch : str := py "## B" ++ nl ++ py "z".

(** A request whose sub-header cannot be encoded. *)
Definition surrogate_request : Patch :=
  {| section := py "Characters";
     h2 := Some [55296%N];
     replace := zara_patch |}.

Definition harbour_patch : str := py "The harbour is busy.".

(** A preamble, a section with blank lines around and inside its content,
    and a section after it. *)
Definition doc_notes : str :=
  py "# Title" ++ nl ++ py "## Notes" ++ nl ++ nl ++ py "first" ++ nl
  ++ py " " ++ nl ++ py "second" ++ nl ++ nl ++ py "## End" ++ nl ++ py "z".

(** Two sections, and requests on them. *)
Definition doc_story : str := doc_characters ++ nl ++ nl ++ doc_setting.

Definition zara_request : Patch :=
  {| section := py "Characters"; h2 := None; replace := zara_patch |}.

Definition world_fresh : world :=
  {| db := NoFile; last_update_file := Missing; proposal_file := None |}.

Definition world_broken : world :=
  {| db := Unusable;
     last_update_file := Text (py "1700000000");
     proposal_file := None |}.

(** A database that holds [doc_story], and a last-updated file that
    cannot be read. *)
Definition world_story : world :=
  {| db := Rows (Some doc_story);
     last_update_file := Undecodable;
     proposal_file := None |}.

(** Two ways to settle a closed side condition by evaluation. *)
Ltac by_eval := vm_compute; first [reflexivity | exact I | lia].
Ltac by_decide := apply (bool_decide_unpack _); vm_compute; exact I.

(** A cut of a closed document, checked by evaluation. *)
Ltac cut_by_eval :=
  split; [by_eval|split; [by_decide|split; [by_eval|split; [by_decide|by_eval]]]].

(** Appends and conses put in right-nested form. *)
Ltac list_assoc :=
  repeat (rewrite <- (assoc_L (++)) || rewrite <- app_comm_cons); try done.

(** * Facts about the primitives *)

(** ** Trimming a list at both ends *)

Section Trim.
Context {A : Type} (f : A -> bool).

Lemma forallb_reverse (l : list A) : forallb f (reverse l) = forallb f l.
Proof.
  induction l as [|x l IH]; [done|].
  rewrite reverse_cons, forallb_app, IH. simpl.
  rewrite andb_true_r. apply andb_comm.
Qed.

Lemma drop_while_all (a l : list A) :
  forallb f a = true -> drop_while f (a ++ l) = drop_while f l.
Proof.
  induction a as [|x a IH]; simpl; [done|].
  intros [Hx Ha]%andb_prop. rewrite Hx. auto.
Qed.

Lemma drop_while_no_lead (l : list A) : no_lead f l -> drop_while f l = l.
Proof. destruct l as [|x l]; simpl; [done|]. by intros ->. Qed.

Lemma no_lead_drop_while (l : list A) : no_lead f (drop_while f l).
Proof.
  induction l as [|x l IH]; simpl; [done|].
  destruct (f x) eqn:Hx; [done|]. simpl. done.
Qed.

Lemma drop_while_decompose (l : list A) :
  exists a, l = a ++ drop_while f l /\ forallb f a = true.
Proof.
  induction l as [|x l (a & Hl & Ha)]; simpl.
  - by exists [].
  - destruct (f x) eqn:Hx.
    + exists (x :: a). simpl. rewrite Hx, Ha. split; [congruence|done].
    + by exists [].
Qed.

(** A run that starts with an element that stays is kept whole. *)
Lemma drop_while_keeps (p m q : list A) :
  no_lead f m -> m <> [] ->
  exists p' a, p = a ++ p' /\ forallb f a = true
               /\ drop_while f (p ++ m ++ q) = p' ++ m ++ q.
Proof.
  intros Hm Hne. induction p as [|x p (p' & a & Hp & Ha & IH)]; simpl.
  - exists [], []. simpl. split; [done|]. split; [done|].
    destruct m as [|y m]; [done|]. simpl in *. by rewrite Hm.
  - destruct (f x) eqn:Hx.
    + exists p', (x :: a). simpl. rewrite Hx, Ha, IH. split; [congruence|done].
    + by exists (x :: p), [].
Qed.

Lemma drop_while_end_all (l b : list A) :
  forallb f b = true -> drop_while_end f (l ++ b) = drop_while_end f l.
Proof.
  intros Hb. unfold drop_while_end. rewrite reverse_app.
  rewrite drop_while_all; [done|]. by rewrite forallb_reverse.
Qed.

Lemma drop_while_end_no_lead (l : list A) :
  no_lead f (reverse l) -> drop_while_end f l = l.
Proof.
  intros Hl. unfold drop_while_end. rewrite drop_while_no_lead by done.
  apply reverse_involutive.
Qed.

Lemma no_lead_drop_while_end (l : list A) :
  no_lead f (reverse (drop_while_end f l)).
Proof.
  unfold drop_while_end. rewrite reverse_involutive. apply no_lead_drop_while.
Qed.

Lemma drop_while_end_decompose (l : list A) :
  exists b, l = drop_while_end f l ++ b /\ forallb f b = true.
Proof.
  destruct (drop_while_decompose (reverse l)) as (a & Hl & Ha).
  exists (reverse a). split.
  - unfold drop_while_end. rewrite <- reverse_app, <- Hl.
    by rewrite reverse_involutive.
  - by rewrite forallb_reverse.
Qed.

Lemma drop_while_end_keeps (p m q : list A) :
  no_lead f (reverse m) -> m <> [] ->
  exists q' b, q = q' ++ b /\ forallb f b = true
               /\ drop_while_end f (p ++ m ++ q) = p ++ m ++ q'.
Proof.
  intros Hm Hne.
  destruct (drop_while_keeps (reverse q) (reverse m) (reverse p) Hm)
    as (q' & a & Hq & Ha & Hd).
  { intros Hr. apply Hne. by rewrite <- (reverse_involutive m), Hr. }
  exists (reverse q'), (reverse a). split; [|split].
  - by rewrite <- reverse_app, <- Hq, reverse_involutive.
  - by rewrite forallb_reverse.
  - unfold drop_while_end. rewrite !reverse_app, <- (assoc_L (++)), Hd.
    by rewrite !reverse_app, !reverse_involutive, <- (assoc_L (++)).
Qed.

(** The front of a list trimmed at the back is still trimmed at the front
    when it was. *)
Lemma no_lead_drop_while_end_front (l : list A) :
  no_lead f l -> no_lead f (drop_while_end f l).
Proof.
  destruct l as [|x l]; [done|]. simpl. intros Hx.
  destruct (drop_while_end_keeps [] [x] l) as (q' & b & _ & _ & Hd); [done..|].
  simpl in Hd. rewrite Hd. done.
Qed.

Lemma trim_tight (l : list A) : tight f (trim f l).
Proof.
  split.
  - apply no_lead_drop_while_end_front, no_lead_drop_while.
  - apply no_lead_drop_while_end.
Qed.

Lemma trim_decompose (l : list A) :
  exists a b, l = a ++ trim f l ++ b
              /\ forallb f a = true /\ forallb f b = true.
Proof.
  destruct (drop_while_decompose l) as (a & Hl & Ha).
  destruct (drop_while_end_decompose (drop_while f l)) as (b & Hd & Hb).
  exists a, b. unfold trim. by rewrite <- Hd, <- Hl.
Qed.

Lemma trim_unique (a m b : list A) :
  forallb f a = true -> forallb f b = true -> tight f m ->
  trim f (a ++ m ++ b) = m.
Proof.
  intros Ha Hb [Hm1 Hm2]. unfold trim. rewrite drop_while_all by done.
  destruct m as [|x m].
  - simpl. rewrite <- (app_nil_r b), drop_while_all by done. done.
  - rewrite drop_while_no_lead by done.
    rewrite drop_while_end_all by done.
    by apply drop_while_end_no_lead.
Qed.

Lemma trim_pad (a l b : list A) :
  forallb f a = true -> forallb f b = true -> trim f (a ++ l ++ b) = trim f l.
Proof.
  intros Ha Hb. destruct (trim_decompose l) as (a' & b' & Hl & Ha' & Hb').
  rewrite Hl at 1.
  replace (a ++ (a' ++ trim f l ++ b') ++ b)
    with ((a ++ a') ++ trim f l ++ (b' ++ b)) by (by rewrite <- !(assoc_L (++))).
  apply trim_unique; [| |apply trim_tight]; rewrite forallb_app; by apply andb_true_intro.
Qed.

Lemma trim_all (l : list A) : forallb f l = true -> trim f l = [].
Proof.
  intros Hl. rewrite <- (app_nil_r l). change (l ++ []) with (l ++ [] ++ []).
  by apply trim_unique.
Qed.

End Trim.

(** ** Splitting and joining *)

Lemma split_char_nonempty d s : split_char d s <> [].
Proof.
  destruct s as [|c s]; simpl; [done|].
  destruct (c =? d)%N; [done|]. by destruct (split_char d s).
Qed.

Lemma split_char_no_sep d s : d ∉ s -> split_char d s = [s].
Proof.
  induction s as [|c s IH]; simpl; [done|].
  intros Hd. apply not_elem_of_cons in Hd as [Hc Hs].
  destruct (N.eqb_spec c d) as [->|_]; [done|]. by rewrite IH.
Qed.

Lemma split_char_elems d s : Forall (fun l => d ∉ l) (split_char d s).
Proof.
  induction s as [|c s IH]; simpl.
  - apply Forall_singleton, not_elem_of_nil.
  - destruct (N.eqb_spec c d) as [->|Hc].
    + apply Forall_cons. split; [apply not_elem_of_nil|done].
    + destruct (split_char d s) as [|l ls].
      * apply Forall_singleton. apply not_elem_of_cons. split; [done|].
        apply not_elem_of_nil.
      * apply Forall_cons in IH as [Hl Hls].
        apply Forall_cons. split; [|done]. apply not_elem_of_cons.
        split; [congruence|done].
Qed.

Lemma split_char_app d a b :
  split_char d (a ++ d :: b) = split_char d a ++ split_char d b.
Proof.
  induction a as [|c a IH]; simpl.
  - by rewrite N.eqb_refl.
  - destruct (c =? d)%N; [by rewrite IH|].
    rewrite IH. pose proof (split_char_nonempty d a).
    by destruct (split_char d a).
Qed.

Lemma join_nl_cons l ls : ls <> [] -> join_nl (l :: ls) = l ++ NL :: join_nl ls.
Proof. by destruct ls. Qed.

Lemma join_nl_app ls ks :
  ls <> [] -> ks <> [] -> join_nl (ls ++ ks) = join_nl ls ++ NL :: join_nl ks.
Proof.
  intros Hls Hks. induction ls as [|l ls IH]; [done|].
  destruct ls as [|l' ls].
  - simpl. by destruct ks.
  - assert (IH' := IH ltac:(discriminate)).
    rewrite <- !app_comm_cons in *.
    rewrite (join_nl_cons l (l' :: ls ++ ks)) by discriminate.
    rewrite IH'. rewrite (join_nl_cons l (l' :: ls)) by discriminate.
    by rewrite <- (assoc_L (++)).
Qed.

Lemma join_split s : join_nl (split_nl s) = s.
Proof.
  unfold split_nl. induction s as [|c s IH]; simpl; [done|].
  pose proof (split_char_nonempty NL s) as Hne.
  destruct (N.eqb_spec c NL) as [->|_].
  - rewrite join_nl_cons by done. by rewrite IH.
  - destruct (split_char NL s) as [|l ls]; [done|].
    destruct ls as [|l' ls]; simpl in *; by rewrite <- IH.
Qed.

Lemma split_join ls :
  ls <> [] -> split_nl (join_nl ls) = concat (map split_nl ls).
Proof.
  intros Hne. induction ls as [|l ls IH]; [done|].
  destruct ls as [|l' ls].
  - simpl. by rewrite app_nil_r.
  - rewrite join_nl_cons by done. unfold split_nl at 1.
    rewrite split_char_app. fold (split_nl l).
    fold (split_nl (join_nl (l' :: ls))). by rewrite IH.
Qed.

(** Lines without a newline are recovered by splitting their join. *)
Lemma split_join_lines ls :
  ls <> [] -> Forall (fun l => NL ∉ l) ls -> split_nl (join_nl ls) = ls.
Proof.
  intros Hne Hls. rewrite split_join by done. clear Hne.
  induction Hls as [|l ls Hl _ IH]; [done|].
  simpl. unfold split_nl at 1. rewrite split_char_no_sep by done.
  simpl. by rewrite IH.
Qed.

Lemma split_nl_elems s : Forall (fun l => NL ∉ l) (split_nl s).
Proof. apply split_char_elems. Qed.

Lemma split_nl_nonempty s : split_nl s <> [].
Proof. apply split_char_nonempty. Qed.

(** ** Prefixes and contiguous runs *)

Lemma startswith_spec s p : startswith s p = true <-> exists r, s = p ++ r.
Proof.
  revert s. induction p as [|c p IH]; intros s; simpl.
  - split; [by exists s|done].
  - destruct s as [|d s].
    + split; [done|]. by intros [r Hr].
    + rewrite andb_true_iff, N.eqb_eq, IH. split.
      * intros [-> [r ->]]. by exists r.
      * intros [r Hr]. injection Hr as -> ->. split; [done|by exists r].
Qed.

Lemma contains_spec needle hay :
  contains needle hay = true <-> exists a b, hay = a ++ needle ++ b.
Proof.
  induction hay as [|c hay IH]; simpl.
  - rewrite orb_false_r, startswith_spec. split.
    + intros [r Hr]. by exists [], r.
    + intros (a & b & Hab). destruct a; [|done]. by exists b.
  - rewrite orb_true_iff, startswith_spec, IH. split.
    + intros [[r Hr]|(a & b & Hab)].
      * by exists [], r.
      * exists (c :: a), b. by rewrite Hab.
    + intros (a & b & Hab). destruct a as [|c' a].
      * left. by exists b.
      * right. exists a, b. by injection Hab.
Qed.

Lemma contains_nil hay : contains [] hay = true.
Proof. by destruct hay. Qed.

(** ** Scans *)

Lemma find_index_none {A} (f : A -> bool) l :
  find_index f l = None <-> forallb (fun x => negb (f x)) l = true.
Proof.
  induction l as [|x l IH]; simpl; [done|].
  destruct (f x); simpl; [done|].
  rewrite <- IH. by destruct (find_index f l).
Qed.

Lemma find_index_some {A} (f : A -> bool) l i :
  find_index f l = Some i ->
  exists x, l !! i = Some x /\ f x = true
            /\ forallb (fun x => negb (f x)) (take i l) = true.
Proof.
  revert i. induction l as [|x l IH]; intros i; simpl; [done|].
  destruct (f x) eqn:Hx.
  - intros [= <-]. by exists x.
  - destruct (find_index f l) as [j|]; [|done]. intros [= <-].
    destruct (IH j eq_refl) as (y & Hy & Hfy & Hall).
    exists y. simpl. by rewrite Hx.
Qed.

Lemma find_index_app {A} (f : A -> bool) l k :
  find_index f (l ++ k) =
  match find_index f l with
  | Some i => Some i
  | None => (fun j => length l + j) <$> find_index f k
  end.
Proof.
  induction l as [|x l IH]; simpl.
  - by destruct (find_index f k).
  - destruct (f x); [done|]. rewrite IH.
    destruct (find_index f l); [done|]. by destruct (find_index f k).
Qed.

Lemma find_index_lt {A} (f : A -> bool) l i :
  find_index f l = Some i -> i < length l.
Proof.
  intros (x & Hx & _)%find_index_some. by eapply lookup_lt_Some.
Qed.

(** ** Whitespace, [strip] and blank lines *)

Section TrimMore.
Context {A : Type} (f : A -> bool).

Lemma trim_keeps (p m q : list A) :
  tight f m -> m <> [] -> exists p' q', trim f (p ++ m ++ q) = p' ++ m ++ q'.
Proof.
  intros [Hm1 Hm2] Hne. unfold trim.
  destruct (drop_while_keeps f p m q Hm1 Hne) as (p' & a & _ & _ & ->).
  destruct (drop_while_end_keeps f p' m q Hm2 Hne) as (q' & b & _ & _ & ->).
  by exists p', q'.
Qed.

Lemma trim_nil_all (l : list A) : trim f l = [] -> forallb f l = true.
Proof.
  intros Hl. destruct (trim_decompose f l) as (a & b & Hab & Ha & Hb).
  rewrite Hab, Hl, !forallb_app, Ha, Hb. done.
Qed.

End TrimMore.

Lemma strip_is_trim s : strip s = trim isspace s.
Proof. done. Qed.

Lemma blank_spec l : blank l = forallb isspace l.
Proof.
  unfold blank. destruct (forallb isspace l) eqn:Hl.
  - by rewrite strip_is_trim, trim_all.
  - destruct (strip l) eqn:Hs; [|done].
    apply trim_nil_all in Hs. congruence.
Qed.

Lemma isspace_NL : isspace NL = true.
Proof. done. Qed.

Lemma join_blank_lines ls :
  forallb blank ls = true -> forallb isspace (join_nl ls) = true.
Proof.
  induction ls as [|l ls IH]; [done|]. cbn [forallb].
  intros [Hl Hls]%andb_prop. rewrite blank_spec in Hl.
  destruct ls as [|l' ls]; [done|].
  rewrite join_nl_cons by discriminate.
  rewrite forallb_app, Hl. cbn [forallb]. by rewrite isspace_NL, IH.
Qed.

(** Blank lines around a block of lines do not show after [strip]. *)
Lemma strip_join_pad a ls b :
  forallb blank a = true -> forallb blank b = true ->
  strip (join_nl (a ++ ls ++ b)) = strip (join_nl ls).
Proof.
  intros Ha Hb. rewrite !strip_is_trim.
  assert (Hright : forall ks, trim isspace (join_nl (ks ++ b)) = trim isspace (join_nl ks)).
  { intros ks. destruct (decide (b = [])) as [->|Hbne]; [by rewrite app_nil_r|].
    destruct (decide (ks = [])) as [->|Hkne].
    - simpl. by apply trim_all, join_blank_lines.
    - rewrite join_nl_app by done.
      rewrite <- (app_nil_l (join_nl ks ++ _)).
      apply (trim_pad isspace [] (join_nl ks) (NL :: join_nl b)); [done|].
      simpl. by apply join_blank_lines. }
  rewrite (assoc_L (++)), Hright.
  destruct (decide (a = [])) as [->|Hane]; [done|].
  destruct (decide (ls = [])) as [->|Hlne].
  - rewrite app_nil_r. simpl. by apply trim_all, join_blank_lines.
  - rewrite join_nl_app by done.
    replace (join_nl a ++ NL :: join_nl ls)
      with ((join_nl a ++ [NL]) ++ join_nl ls ++ []).
    + apply trim_pad; [|done]. rewrite forallb_app.
      by rewrite join_blank_lines.
    + by rewrite app_nil_r, <- (assoc_L (++)).
Qed.

Lemma strip_join_trim ls :
  strip (join_nl (trim blank ls)) = strip (join_nl ls).
Proof.
  destruct (trim_decompose blank ls) as (a & b & Hab & Ha & Hb).
  rewrite Hab at 2. by rewrite strip_join_pad.
Qed.

(** A run occurs in the stripped text when it occurs in the text. *)
Lemma contains_strip x y :
  contains x y = true -> contains (strip x) (strip y) = true.
Proof.
  intros (u & v & ->)%contains_spec.
  destruct (decide (strip x = [])) as [->|Hne]; [apply contains_nil|].
  destruct (trim_decompose isspace x) as (a & b & Hx & _ & _).
  rewrite <- strip_is_trim in Hx.
  assert (Hy : u ++ x ++ v = (u ++ a) ++ strip x ++ (b ++ v)).
  { rewrite Hx at 1. by rewrite <- !(assoc_L (++)). }
  rewrite Hy, (strip_is_trim (_ ++ _)).
  destruct (trim_keeps isspace (u ++ a) (strip x) (b ++ v)) as (p' & q' & ->).
  - rewrite strip_is_trim. apply trim_tight.
  - done.
  - apply contains_spec. by exists p', q'.
Qed.

(** * The merge on a document that has the target section *)

Section Present.
Context `{Casing}.

(** The document is returned as it is whenever the stripped patch occurs in
    the stripped text of the section. *)
Lemma contained_unchanged markdown section_name new_content :
  has_section markdown section_name ->
  contains (strip new_content)
           (strip (join_nl (section_lines markdown section_name))) = true ->
  apply_patch_to_section markdown section_name new_content = markdown.
Proof.
  intros [i Hi]. unfold section_lines, target_end, apply_patch_to_section.
  rewrite Hi. cbv zeta. by intros ->.
Qed.

Lemma extract_section_present markdown section_name :
  has_section markdown section_name ->
  extract_section markdown section_name
  = join_nl (trim blank (section_lines markdown section_name)).
Proof.
  intros [i Hi]. unfold section_lines, target_end, extract_section.
  by rewrite Hi.
Qed.

(** C2: when the target section exists and the patch content, without its
    leading and trailing blank lines, occurs as one contiguous run in the
    section's content normalised the same way (what [extract_section]
    returns), the merge returns the document unchanged. *)
Theorem exact_containment_unchanged markdown section_name new_content :
  has_section markdown section_name ->
  contains (strip_blank_lines new_content)
           (extract_section markdown section_name) = true ->
  apply_patch_to_section markdown section_name new_content = markdown.
Proof.
  intros Hsec Hin. apply contained_unchanged; [done|].
  rewrite extract_section_present in Hin by done.
  apply contains_strip in Hin. unfold strip_blank_lines in Hin.
  by rewrite !strip_join_trim, join_split in Hin.
Qed.

(** C10: when the target section exists, a patch whose content is empty or
    only whitespace leaves the document unchanged. *)
Theorem whitespace_patch_unchanged markdown section_name new_content :
  has_section markdown section_name ->
  forallb isspace new_content = true ->
  apply_patch_to_section markdown section_name new_content = markdown.
Proof.
  intros Hsec Hws. apply contained_unchanged; [done|].
  rewrite (strip_is_trim new_content), trim_all by done.
  apply contains_nil.
Qed.

End Present.

(** ** Shape of the result *)

Lemma concat_split_lines ls :
  Forall (fun l => NL ∉ l) ls -> concat (map split_nl ls) = ls.
Proof.
  induction 1 as [|l ls Hl _ IH]; [done|]. simpl.
  unfold split_nl at 1. rewrite split_char_no_sep by done. simpl. by rewrite IH.
Qed.

Lemma find_section_end_bounds lines s :
  s <= length lines ->
  s <= find_section_end lines s /\ find_section_end lines s <= length lines.
Proof.
  intros Hs. unfold find_section_end.
  destruct (find_index is_header (drop s lines)) as [k|] eqn:Hk; [|lia].
  apply find_index_lt in Hk. rewrite length_drop in Hk. lia.
Qed.

(** No line of the section is a header. *)
Lemma find_section_end_no_header lines s :
  forallb (fun l => negb (is_header l))
          (slice lines s (find_section_end lines s)) = true.
Proof.
  unfold slice, find_section_end.
  destruct (find_index is_header (drop s lines)) as [k|] eqn:Hk.
  - apply find_index_some in Hk as (x & _ & _ & Hall).
    by replace (s + k - s) with k by lia.
  - apply find_index_none in Hk.
    rewrite take_ge; [done|]. rewrite length_drop. lia.
Qed.

(** The line at the end of the section, when there is one, is a header. *)
Lemma find_section_end_header lines s :
  find_section_end lines s < length lines ->
  exists l rest, drop (find_section_end lines s) lines = l :: rest
                 /\ is_header l = true.
Proof.
  unfold find_section_end.
  destruct (find_index is_header (drop s lines)) as [k|] eqn:Hk; [|lia].
  intros _. apply find_index_some in Hk as (x & Hx & Hfx & _).
  rewrite lookup_drop in Hx. exists x, (drop (S (s + k)) lines).
  split; [|done]. by apply drop_S.
Qed.

Lemma take_slice {A} (l : list A) s e :
  s <= e -> take e l = take s l ++ slice l s e.
Proof.
  intros Hse. unfold slice. rewrite take_take_drop. f_equal. lia.
Qed.

Lemma last_line_nonblank_section lines s e :
  e <= length lines ->
  (s <? e) && last_line_nonblank (take e lines)
  = last_line_nonblank (slice lines s e).
Proof.
  intros He. destruct (Nat.ltb_spec s e) as [Hlt|Hge]; simpl.
  - unfold last_line_nonblank. rewrite (take_slice lines s e) by lia.
    rewrite last_app. destruct (last (slice lines s e)) eqn:Hl; [done|].
    apply last_None in Hl. apply (f_equal length) in Hl.
    unfold slice in Hl. rewrite length_take, length_drop in Hl.
    simpl in Hl. lia.
  - unfold slice. replace (e - s) with 0 by lia. done.
Qed.

Section Shape.
Context `{Casing}.

Lemma apply_patch_absent markdown section_name new_content :
  ~ has_section markdown section_name ->
  apply_patch_to_section markdown section_name new_content
  = created markdown section_name new_content.
Proof.
  intros Hno. unfold apply_patch_to_section, created.
  destruct (find_section section_name (split_nl markdown)) eqn:Hf; [|done].
  exfalso. apply Hno. unfold has_section. by rewrite Hf.
Qed.

Lemma apply_patch_present markdown section_name new_content :
  has_section markdown section_name ->
  apply_patch_to_section markdown section_name new_content
  = if contains (strip new_content)
                (strip (join_nl (section_lines markdown section_name)))
       || duplicate_found markdown section_name new_content
    then markdown
    else appended markdown section_name new_content.
Proof.
  intros [i Hi].
  unfold apply_patch_to_section, duplicate_found, appended, section_lines,
    target_end.
  rewrite Hi. cbv zeta.
  set (lines := split_nl markdown).
  set (e := find_section_end lines (i + 1)).
  destruct (contains _ _) eqn:Hc; [done|]. simpl.
  match goal with
  | |- (if ?b then _ else _) = _ => destruct b; [done|]
  end.
  destruct (strip new_content) as [|c cl] eqn:Hs.
  { by rewrite contains_nil in Hc. }
  cbn [truthy].
  assert (i + 1 <= length lines) as Hi'.
  { apply find_index_lt in Hi. fold lines in Hi. lia. }
  destruct (find_section_end_bounds lines (i + 1) Hi') as [_ He]. fold e in He.
  rewrite last_line_nonblank_section by done.
  destruct (Nat.ltb_spec e (length lines)) as [Hlt|Hge].
  - by rewrite <- !(assoc_L (++)).
  - rewrite (drop_ge lines e) by done. by rewrite !app_nil_r.
Qed.

End Shape.

(** * The merge on a document without the target section *)

Section Absent.
Context `{Casing}.

Lemma is_header_new_header section_name :
  is_header (HASH :: HASH :: SPACE :: section_name) = true.
Proof. done. Qed.

Lemma created_text markdown section_name new_content :
  created markdown section_name new_content
  = markdown
    ++ (if last_line_nonblank (split_nl markdown) then [NL] else [])
    ++ NL :: HASH :: HASH :: SPACE :: section_name ++ NL :: NL :: new_content.
Proof.
  unfold created.
  rewrite join_nl_app; [|apply split_nl_nonempty|by destruct (last_line_nonblank _)].
  rewrite join_split. f_equal.
  pose proof (split_nl_nonempty new_content) as Hne.
  destruct (last_line_nonblank _); simpl.
  - destruct (split_nl new_content) eqn:Hp; [done|]. rewrite <- Hp, join_split.
    done.
  - destruct (split_nl new_content) eqn:Hp; [done|]. rewrite <- Hp, join_split.
    done.
Qed.

Lemma created_lines markdown section_name new_content :
  NL ∉ section_name ->
  split_nl (created markdown section_name new_content)
  = split_nl markdown
    ++ (if last_line_nonblank (split_nl markdown) then [[]] else [])
    ++ [HASH :: HASH :: SPACE :: section_name] ++ [[]]
    ++ split_nl new_content.
Proof.
  intros HS. unfold created. apply split_join_lines.
  - intros Hnil. apply app_eq_nil in Hnil as [Hnil _].
    by apply split_nl_nonempty in Hnil.
  - rewrite !Forall_app. split; [apply split_nl_elems|].
    split; [|split; [|split; [|apply split_nl_elems]]].
    + destruct (last_line_nonblank _); [|done].
      apply Forall_singleton, not_elem_of_nil.
    + apply Forall_singleton. rewrite !not_elem_of_cons. done.
    + apply Forall_singleton, not_elem_of_nil.
Qed.

Lemma filter_no_header ls :
  Forall (fun l => is_header l = false) ls ->
  filter (fun l => is_header l) ls = [].
Proof.
  induction 1 as [|l ls Hl _ IH]; [done|].
  rewrite filter_cons, IH. rewrite Hl. done.
Qed.

(** C6, amended: on a document that has no section matching the target
    name, the merge appends to the text a blank separator line (only when
    the last line of the document is not blank), the header line [## name]
    with the name as given, one blank line and the patch content verbatim;
    when neither the name contains a newline nor a line of the patch content
    is itself a header line, the document gains exactly one section header,
    the new one, and it comes last. *)
Theorem absent_section_created markdown section_name new_content :
  ~ has_section markdown section_name ->
  apply_patch_to_section markdown section_name new_content
  = markdown
    ++ (if last_line_nonblank (split_nl markdown) then [NL] else [])
    ++ NL :: HASH :: HASH :: SPACE :: section_name ++ NL :: NL :: new_content
  /\ (NL ∉ section_name ->
      Forall (fun l => is_header l = false) (split_nl new_content) ->
      header_lines (apply_patch_to_section markdown section_name new_content)
      = header_lines markdown ++ [HASH :: HASH :: SPACE :: section_name]).
Proof.
  intros Hno. rewrite apply_patch_absent by done. split.
  - apply created_text.
  - intros HS HP. unfold header_lines. rewrite created_lines by done.
    rewrite !filter_app. rewrite (filter_no_header (split_nl new_content)) by done.
    f_equal. destruct (last_line_nonblank _); done.
Qed.

End Absent.

(** * Frame *)

Section Frame.
Context `{Casing}.

Lemma appended_lines markdown section_name new_content :
  split_nl (appended markdown section_name new_content)
  = take (target_end markdown section_name) (split_nl markdown)
    ++ ((if last_line_nonblank (section_lines markdown section_name)
         then [[]] else [])
        ++ split_nl new_content)
    ++ drop (target_end markdown section_name) (split_nl markdown).
Proof.
  unfold appended. cbv zeta. rewrite <- (assoc_L (++)).
  apply split_join_lines.
  - intros Hnil. apply app_eq_nil in Hnil as [_ Hnil].
    apply app_eq_nil in Hnil as [_ Hnil].
    apply app_eq_nil in Hnil as [Hnil _].
    by apply split_nl_nonempty in Hnil.
  - rewrite !Forall_app. split; [apply Forall_take, split_nl_elems|].
    split; [|split; [apply split_nl_elems|apply Forall_drop, split_nl_elems]].
    destruct (last_line_nonblank _); [|done].
    apply Forall_singleton, not_elem_of_nil.
Qed.

End Frame.

(** * extract_section *)

Section Extract.
Context `{Casing}.

Lemma match_literal_casing name name' s :
  map tolower name' = map tolower name ->
  match_literal name' s = match_literal name s.
Proof.
  revert name' s. induction name as [|p name IH]; intros [|p' name'] s Hc;
    try done.
  simpl in Hc. injection Hc as Hp Hc. destruct s as [|c s]; [done|].
  simpl. unfold re_ignorecase. rewrite Hp.
  destruct (tolower c =? tolower p)%N; [by apply IH|done].
Qed.

Lemma is_section_header_casing name name' line :
  map tolower name' = map tolower name ->
  is_section_header name' line = is_section_header name line.
Proof.
  intros Hc. unfold is_section_header.
  destruct (drop_while isspace line) as [|a [|b r]]; try done.
  f_equal. induction r as [|c r IH]; [done|]. simpl. rewrite IH.
  unfold match_name_tail. by rewrite (match_literal_casing name name').
Qed.

Lemma find_section_casing name name' lines :
  map tolower name' = map tolower name ->
  find_section name' lines = find_section name lines.
Proof.
  intros Hc. unfold find_section.
  induction lines as [|l lines IH]; [done|]. simpl.
  by rewrite (is_section_header_casing name name'), IH.
Qed.

End Extract.

(** * The bullet rules *)

Section Bullets.
Context `{Casing}.

Lemma bullet_duplicate_intro new_lines section new_line line new_item existing_item :
  new_line ∈ new_lines -> bullet_item new_line = Some new_item ->
  line ∈ section -> bullet_item line = Some existing_item ->
  item_duplicate new_item existing_item = true ->
  bullet_duplicate new_lines section = true.
Proof.
  intros Hn Hni Hl Hei Hdup. unfold bullet_duplicate.
  apply existsb_exists. exists new_line. split; [by apply list_elem_of_In|].
  rewrite Hni. apply existsb_exists. exists line.
  split; [by apply list_elem_of_In|]. by rewrite Hei.
Qed.

Lemma bullet_duplicate_elim new_lines section :
  bullet_duplicate new_lines section = true ->
  exists new_line line new_item existing_item,
    new_line ∈ new_lines /\ bullet_item new_line = Some new_item
    /\ line ∈ section /\ bullet_item line = Some existing_item
    /\ item_duplicate new_item existing_item = true.
Proof.
  unfold bullet_duplicate. intros (new_line & Hn & Hin)%existsb_exists.
  destruct (bullet_item new_line) as [new_item|] eqn:Hni; [|done].
  apply existsb_exists in Hin as (line & Hl & Hdup).
  destruct (bullet_item line) as [existing_item|] eqn:Hei; [|done].
  exists new_line, line, new_item, existing_item.
  repeat split; try done; by apply list_elem_of_In.
Qed.

(** C3: on the bullet path, when some incoming bullet line and some bullet
    line of the section have names (item text up to the first ['('] or
    em-dash, trimmed) that are equal after lower-casing, and that name has
    more than 2 characters, the merge returns the document unchanged. *)
Theorem name_match_rejects markdown section_name new_content
    new_line line new_item existing_item :
  has_section markdown section_name ->
  startswith (strip new_content) bullet = true ->
  new_line ∈ split_nl (strip new_content) ->
  bullet_item new_line = Some new_item ->
  line ∈ section_lines markdown section_name ->
  bullet_item line = Some existing_item ->
  lower (item_name new_item) = lower (item_name existing_item) ->
  2 < length (item_name new_item) ->
  apply_patch_to_section markdown section_name new_content = markdown.
Proof.
  intros Hsec Hb Hn Hni Hl Hei Hname Hlen.
  rewrite apply_patch_present by done.
  assert (duplicate_found markdown section_name new_content = true) as ->.
  { unfold duplicate_found. rewrite Hb.
    eapply bullet_duplicate_intro; try done.
    unfold item_duplicate, name_match.
    rewrite bool_decide_eq_true_2 by done.
    apply Nat.ltb_lt in Hlen. rewrite Hlen. simpl.
    by rewrite orb_true_r. }
  by rewrite orb_true_r.
Qed.

End Bullets.

(** * The prose rule *)

Lemma strip_cons_space c l : isspace c = true -> strip (c :: l) = strip l.
Proof.
  intros Hc. rewrite !strip_is_trim. rewrite <- (app_nil_r l) at 1.
  apply (trim_pad isspace [c] l []); [|done]. simpl. by rewrite Hc.
Qed.

Lemma strip_app_space l w : forallb isspace w = true -> strip (l ++ w) = strip l.
Proof.
  intros Hw. rewrite !strip_is_trim.
  by apply (trim_pad isspace [] l w).
Qed.

Lemma stripped_lines_cons_space c s :
  isspace c = true -> stripped_lines (c :: s) = stripped_lines s.
Proof.
  intros Hc. unfold stripped_lines, split_nl. simpl.
  destruct (c =? NL)%N.
  - done.
  - pose proof (split_char_nonempty NL s) as Hne.
    destruct (split_char NL s) as [|l ls]; [done|]. simpl.
    by rewrite strip_cons_space.
Qed.

Lemma stripped_lines_lead a s :
  forallb isspace a = true -> stripped_lines (a ++ s) = stripped_lines s.
Proof.
  induction a as [|c a IH]; [done|]. cbn [forallb].
  intros [Hc Ha]%andb_prop. rewrite <- app_comm_cons.
  rewrite stripped_lines_cons_space by done. auto.
Qed.

Lemma stripped_lines_space b : forallb isspace b = true -> stripped_lines b = [].
Proof.
  intros Hb. rewrite <- (app_nil_r b). by rewrite stripped_lines_lead.
Qed.

Lemma split_nl_cons c s :
  split_nl (c :: s)
  = if (c =? NL)%N then [] :: split_nl s
    else (c :: hd [] (split_nl s)) :: tl (split_nl s).
Proof.
  unfold split_nl. simpl. destruct (c =? NL)%N; [done|].
  pose proof (split_char_nonempty NL s). by destruct (split_char NL s).
Qed.

(** Whitespace after a text adds whitespace to its last line and blank
    lines after it. *)
Lemma split_nl_trail b s :
  forallb isspace b = true ->
  exists w ls,
    split_nl (s ++ b) = (hd [] (split_nl s) ++ w) :: ls
    /\ forallb isspace w = true
    /\ nonblank_trimmed ls = nonblank_trimmed (tl (split_nl s)).
Proof.
  intros Hb. induction s as [|c s (w & ls & Hsplit & Hw & Hls)].
  - simpl. pose proof (split_nl_nonempty b) as Hne.
    pose proof (stripped_lines_space b Hb) as Hnil.
    unfold stripped_lines in Hnil.
    destruct (split_nl b) as [|w ls]; [done|]. exists w, ls.
    split; [done|]. simpl in Hnil.
    change (filter (fun l => truthy l) (strip w :: map strip ls) = []) in Hnil.
    rewrite filter_cons in Hnil.
    destruct (strip w) eqn:Hsw; simpl in Hnil; [|done].
    split; [|done]. by apply trim_nil_all.
  - rewrite <- app_comm_cons, !split_nl_cons.
    destruct (c =? NL)%N.
    + exists [], (split_nl (s ++ b)). split; [done|]. split; [done|].
      simpl. rewrite Hsplit. unfold nonblank_trimmed in *.
      pose proof (split_nl_nonempty s) as Hne.
      destruct (split_nl s) as [|l ks]; [done|]. simpl in *.
      rewrite !filter_cons, strip_app_space by done.
      by rewrite Hls.
    + exists w, ls. rewrite Hsplit. simpl. done.
Qed.

Lemma stripped_lines_trail s b :
  forallb isspace b = true -> stripped_lines (s ++ b) = stripped_lines s.
Proof.
  intros Hb. destruct (split_nl_trail b s Hb) as (w & ls & Hsplit & Hw & Hls).
  unfold stripped_lines. rewrite Hsplit.
  pose proof (split_nl_nonempty s) as Hne.
  destruct (split_nl s) as [|l ks]; [done|]. simpl in *.
  unfold nonblank_trimmed in Hls.
  rewrite !filter_cons, strip_app_space by done. by rewrite Hls.
Qed.

Lemma stripped_lines_strip s : stripped_lines (strip s) = stripped_lines s.
Proof.
  destruct (trim_decompose isspace s) as (a & b & Hs & Ha & Hb).
  rewrite Hs at 2. rewrite stripped_lines_lead, stripped_lines_trail by done.
  done.
Qed.

Lemma stripped_lines_join ls :
  Forall (fun l => NL ∉ l) ls -> stripped_lines (join_nl ls) = nonblank_trimmed ls.
Proof.
  intros Hls. destruct ls as [|l ls]; [done|].
  unfold stripped_lines. by rewrite split_join_lines.
Qed.

Section Prose.
Context `{Casing}.

Lemma section_lines_no_newline markdown section_name :
  Forall (fun l => NL ∉ l) (section_lines markdown section_name).
Proof.
  unfold section_lines.
  destruct (find_section section_name (split_nl markdown)); [|done].
  unfold slice. apply Forall_take, Forall_drop, split_nl_elems.
Qed.

(** The test of the prose branch, on the lines of the patch and of the
    section themselves. *)
Lemma prose_duplicate_lines markdown section_name new_content :
  prose_duplicate (strip new_content)
                  (strip (join_nl (section_lines markdown section_name))) = true
  <-> exists l, l ∈ nonblank_trimmed (split_nl new_content)
                /\ l ∈ nonblank_trimmed (section_lines markdown section_name).
Proof.
  unfold prose_duplicate. rewrite !stripped_lines_strip.
  rewrite stripped_lines_join by apply section_lines_no_newline.
  rewrite existsb_exists. split.
  - intros (l & Hl & Hin). exists l. apply list_elem_of_In in Hl.
    by apply bool_decide_eq_true_1 in Hin.
  - intros (l & Hl & Hin). exists l. split; [by apply list_elem_of_In|].
    by apply bool_decide_eq_true_2.
Qed.

End Prose.

(** * Which rule a patch is given to *)

Lemma no_lead_app {A} (f : A -> bool) x y :
  x <> [] -> no_lead f x -> no_lead f (x ++ y).
Proof. by destruct x. Qed.

Lemma no_lead_app_all {A} (f : A -> bool) x y :
  x <> [] -> forallb f x = true -> ~ no_lead f (x ++ y).
Proof.
  destruct x as [|c x]; [done|]. simpl. intros _ [Hc _]%andb_prop. congruence.
Qed.

(** The stripped content begins with the bullet marker exactly when the
    content is whitespace, the marker, and a rest that is not all
    whitespace. *)
Lemma startswith_strip_bullet s :
  startswith (strip s) bullet = true
  <-> exists ws rest, s = ws ++ bullet ++ rest
                      /\ forallb isspace ws = true
                      /\ forallb isspace rest = false.
Proof.
  split.
  - intros [r Hr]%startswith_spec.
    destruct (trim_decompose isspace s) as (a & b & Hs & Ha & Hb).
    rewrite <- strip_is_trim, Hr in Hs.
    exists a, (r ++ b). split; [by rewrite Hs, <- (assoc_L (++))|].
    split; [done|].
    destruct (forallb isspace (r ++ b)) eqn:Hall; [|done]. exfalso.
    rewrite forallb_app in Hall. apply andb_prop in Hall as [Hall _].
    pose proof (trim_tight isspace s) as [_ Ht].
    rewrite <- strip_is_trim, Hr in Ht.
    rewrite reverse_app in Ht. change (reverse bullet) with ([SPACE] ++ [STAR]) in Ht.
    rewrite (assoc_L (++)) in Ht. revert Ht. apply no_lead_app_all.
    + by destruct (reverse r).
    + rewrite forallb_app, forallb_reverse, Hall. done.
  - intros (ws & rest & -> & Hws & Hrest).
    destruct (drop_while_end_decompose isspace rest) as (b & Hb & Hball).
    set (m := drop_while_end isspace rest) in *.
    assert (m <> []) as Hm.
    { intros Hm. rewrite Hm in Hb. simpl in Hb. congruence. }
    assert (strip (ws ++ bullet ++ rest) = bullet ++ m) as ->.
    { rewrite Hb, strip_is_trim.
      replace (ws ++ bullet ++ m ++ b) with (ws ++ (bullet ++ m) ++ b)
        by (by rewrite <- (assoc_L (++))).
      apply trim_unique; [done..|]. split; [done|].
      rewrite reverse_app. apply no_lead_app.
      - intros Hr. apply Hm. by rewrite <- (reverse_involutive m), Hr.
      - apply no_lead_drop_while_end. }
    apply startswith_spec. by exists m.
Qed.

Section Classification.
Context `{Casing}.

(** C9, amended: on a document that has the section, and past the
    containment test, a patch is decided by the bullet rules exactly when
    its content consists of whitespace (blank lines, indentation), the
    marker ['* '], and a rest that is not all whitespace, that is when the
    content stripped of surrounding whitespace begins with the marker; an
    indented first bullet is a bullet.  Every other content is decided by
    the prose rule. *)
Theorem bullet_classification markdown section_name new_content :
  has_section markdown section_name ->
  contains (strip new_content)
           (strip (join_nl (section_lines markdown section_name))) = false ->
  ((exists ws rest, new_content = ws ++ bullet ++ rest
                    /\ forallb isspace ws = true
                    /\ forallb isspace rest = false) ->
   apply_patch_to_section markdown section_name new_content
   = if bullet_duplicate (split_nl (strip new_content))
                         (section_lines markdown section_name)
     then markdown else appended markdown section_name new_content)
  /\ (~ (exists ws rest, new_content = ws ++ bullet ++ rest
                         /\ forallb isspace ws = true
                         /\ forallb isspace rest = false) ->
      apply_patch_to_section markdown section_name new_content
      = if prose_duplicate (strip new_content)
             (strip (join_nl (section_lines markdown section_name)))
        then markdown else appended markdown section_name new_content).
Proof.
  intros Hsec Hc. rewrite apply_patch_present by done. rewrite Hc. simpl.
  unfold duplicate_found. split.
  - intros Hb. apply startswith_strip_bullet in Hb. by rewrite Hb.
  - intros Hnb. destruct (startswith (strip new_content) bullet) eqn:Hb; [|done].
    exfalso. apply Hnb. by apply startswith_strip_bullet.
Qed.

End Classification.

(** * The similarity rule *)

Lemma exceeds_point8_spec x y :
  (Z.of_nat y < 2 * 10 ^ 15)%Z ->
  exceeds_point8 x y = true <-> 4 * y < 5 * x.
Proof.
  intros Hy. unfold exceeds_point8. rewrite Z.ltb_lt.
  change (2 * 10 ^ 15)%Z with 2000000000000000%Z in Hy. lia.
Qed.

Lemma binary64_agrees_100 : binary64_agrees 100 = true.
Proof. vm_compute. reflexivity. Qed.

Lemma binary64_agrees_spec n x y :
  binary64_agrees n = true -> 1 <= y <= n -> x <= y ->
  exceeds_point8 x y = binary64_exceeds_point8 x y.
Proof.
  intros Hall Hy Hx.
  unfold binary64_agrees in Hall. rewrite forallb_forall in Hall.
  specialize (Hall y). rewrite forallb_forall in Hall.
  symmetry. apply Bool.eqb_prop. apply Hall.
  - apply in_seq. lia.
  - apply in_seq. lia.
Qed.

(** On 100 words and fewer, [exceeds_point8] is what the binary64 division
    and comparison compute. *)
Lemma exceeds_point8_binary64 x y :
  1 <= y <= 100 -> x <= y ->
  exceeds_point8 x y = binary64_exceeds_point8 x y.
Proof. exact (binary64_agrees_spec 100 x y binary64_agrees_100). Qed.

Lemma jaccard_above (a b : gset str) :
  (4 # 5 < jaccard a b)%Q <-> 4 * size (a ∪ b) < 5 * size (a ∩ b).
Proof.
  unfold Qlt, jaccard. simpl.
  assert (size (a ∩ b) <= size (a ∪ b)) as Hle.
  { apply subseteq_size. transitivity a.
    - apply intersection_subseteq_l.
    - apply union_subseteq_l. }
  destruct (size (a ∪ b)) as [|u] eqn:Hu.
  - simpl. lia.
  - rewrite <- Pos.of_nat_succ, Znat.Zpos_P_of_succ_nat. lia.
Qed.

Section Similarity.
Context `{Casing}.

Lemma similarity_match_spec new_item existing_item :
  10 < length new_item -> 10 < length existing_item ->
  (Z.of_nat (size (word_set new_item ∪ word_set existing_item))
   < 2 * 10 ^ 15)%Z ->
  similarity_match new_item existing_item = true
  <-> (4 # 5 < jaccard (word_set new_item) (word_set existing_item))%Q.
Proof.
  intros Hn He Hbound. rewrite jaccard_above. unfold similarity_match.
  apply Nat.ltb_lt in Hn, He. rewrite Hn, He. cbv zeta. simpl.
  set (a := word_set new_item) in *. set (b := word_set existing_item) in *.
  assert (size (a ∩ b) <= size a) as Ha
    by apply subseteq_size, intersection_subseteq_l.
  assert (size (a ∩ b) <= size b) as Hb
    by apply subseteq_size, intersection_subseteq_r.
  rewrite !andb_true_iff, !Nat.ltb_lt, exceeds_point8_spec by done. lia.
Qed.

(** C4: for an incoming and an existing bullet item of more than 10
    characters each (and fewer than 2 * 10^15 distinct words), the
    similarity test succeeds exactly when the Jaccard similarity of their
    lower-cased word sets is strictly greater than 4/5, and the merge then
    returns the document unchanged; at a similarity of exactly 4/5 the test
    does not succeed. *)
Theorem similarity_threshold markdown section_name new_content
    new_line line new_item existing_item :
  has_section markdown section_name ->
  startswith (strip new_content) bullet = true ->
  new_line ∈ split_nl (strip new_content) ->
  bullet_item new_line = Some new_item ->
  line ∈ section_lines markdown section_name ->
  bullet_item line = Some existing_item ->
  10 < length new_item -> 10 < length existing_item ->
  (Z.of_nat (size (word_set new_item ∪ word_set existing_item))
   < 2 * 10 ^ 15)%Z ->
  (similarity_match new_item existing_item = true
   <-> (4 # 5 < jaccard (word_set new_item) (word_set existing_item))%Q)
  /\ ((4 # 5 < jaccard (word_set new_item) (word_set existing_item))%Q ->
      apply_patch_to_section markdown section_name new_content = markdown)
  /\ ((jaccard (word_set new_item) (word_set existing_item) == 4 # 5)%Q ->
      similarity_match new_item existing_item = false).
Proof.
  intros Hsec Hb Hnl Hni Hl Hei Hn He Hbound.
  pose proof (similarity_match_spec new_item existing_item Hn He Hbound) as Hspec.
  split; [done|]. split.
  - intros Hgt. apply Hspec in Hgt.
    rewrite apply_patch_present by done.
    assert (duplicate_found markdown section_name new_content = true) as ->.
    { unfold duplicate_found. rewrite Hb.
      eapply bullet_duplicate_intro; try done.
      unfold item_duplicate. rewrite Hgt. apply orb_true_r. }
    by rewrite orb_true_r.
  - intros Heq. destruct (similarity_match new_item existing_item) eqn:Hs; [|done].
    exfalso. apply (Qlt_not_eq (4 # 5) (jaccard (word_set new_item) (word_set existing_item))).
    + by apply Hspec.
    + by symmetry.
Qed.

End Similarity.

(** * Applying a patch twice *)

Section Idempotence.
Context `{Casing}.

Lemma match_literal_refl name : match_literal name name = Some [].
Proof.
  induction name as [|p name IH]; [done|]. simpl.
  unfold re_ignorecase. by rewrite N.eqb_refl.
Qed.

(** The header that the merge writes for a new section is a header of that
    section. *)
Lemma is_section_header_new_header section_name :
  is_section_header section_name (HASH :: HASH :: SPACE :: section_name) = true.
Proof.
  unfold is_section_header.
  change (drop_while isspace (HASH :: HASH :: SPACE :: section_name))
    with (HASH :: HASH :: SPACE :: section_name).
  cbv beta iota. rewrite !N.eqb_refl.
  change (match_spaces_name section_name (SPACE :: section_name))
    with (isspace SPACE
          && (match_spaces_name section_name section_name
              || match_name_tail section_name section_name)).
  unfold match_name_tail. rewrite match_literal_refl.
  change (isspace SPACE) with true. simpl. apply orb_true_r.
Qed.

Lemma find_index_take {A} (f : A -> bool) l i n :
  find_index f l = Some i -> i < n -> find_index f (take n l) = Some i.
Proof.
  revert i n. induction l as [|x l IH]; intros i n; simpl; [done|].
  destruct n as [|n]; [lia|]. simpl. destruct (f x); [done|].
  destruct (find_index f l) as [j|]; [|done]. intros [= <-] Hlt.
  rewrite (IH j n) by (done || lia). done.
Qed.

Lemma contains_app_r pre s : contains s (pre ++ s) = true.
Proof. apply contains_spec. exists pre, []. by rewrite app_nil_r. Qed.

(** A text whose lines are: lines with the header of the section, then
    lines without a header that end with the lines of the patch, then the
    rest of the document, is returned unchanged by the merge of the
    patch. *)
Lemma reapply_unchanged text section_name new_content pre mid post i :
  split_nl text = pre ++ mid ++ split_nl new_content ++ post ->
  find_index (is_section_header section_name) pre = Some i ->
  forallb (fun l => negb (is_header l))
          (drop (i + 1) pre ++ mid ++ split_nl new_content) = true ->
  (post = [] \/ exists h t, post = h :: t /\ is_header h = true) ->
  apply_patch_to_section text section_name new_content = text.
Proof.
  intros Hsplit Hi Hbody Hpost.
  assert (find_section section_name (split_nl text) = Some i) as Hf.
  { unfold find_section. by rewrite Hsplit, find_index_app, Hi. }
  assert (i + 1 <= length pre) as Hlen by (apply find_index_lt in Hi; lia).
  set (body := drop (i + 1) pre ++ mid ++ split_nl new_content) in *.
  assert (drop (i + 1) (split_nl text) = body ++ post) as Hdrop.
  { rewrite Hsplit, drop_app. replace (i + 1 - length pre) with 0 by lia.
    unfold body. by rewrite <- !(assoc_L (++)). }
  assert (section_lines text section_name = body) as Hsl.
  { unfold section_lines, target_end. rewrite Hf.
    unfold slice, find_section_end. rewrite Hdrop, find_index_app.
    apply find_index_none in Hbody. rewrite Hbody.
    destruct Hpost as [->|(h & t & -> & Hh)].
    - simpl. rewrite app_nil_r. apply take_ge.
      apply (f_equal length) in Hdrop. rewrite length_drop, app_nil_r in Hdrop.
      lia.
    - simpl. rewrite Hh. simpl.
      replace (i + 1 + (length body + 0) - (i + 1)) with (length body) by lia.
      apply take_app_length. }
  apply contained_unchanged.
  - unfold has_section. by rewrite Hf.
  - rewrite Hsl. apply contains_strip. unfold body.
    rewrite (assoc_L (++)).
    destruct (decide (drop (i + 1) pre ++ mid = [])) as [->|Hne].
    + simpl. rewrite join_split. apply (contains_app_r []).
    + rewrite join_nl_app by (done || apply split_nl_nonempty).
      rewrite join_split.
      replace (join_nl (drop (i + 1) pre ++ mid) ++ NL :: new_content)
        with ((join_nl (drop (i + 1) pre ++ mid) ++ [NL]) ++ new_content)
        by (by rewrite <- (assoc_L (++))).
      apply contains_app_r.
Qed.

Lemma no_header_forallb ls :
  Forall (fun l => is_header l = false) ls ->
  forallb (fun l => negb (is_header l)) ls = true.
Proof.
  induction 1 as [|l ls Hl _ IH]; [done|]. simpl. by rewrite Hl, IH.
Qed.

(** C1, amended: when the section name contains no newline and no line of
    the patch content is itself a header line, applying the same patch to
    the result of the merge returns that result: merging twice is merging
    once. *)
Theorem merge_idempotent markdown section_name new_content :
  NL ∉ section_name ->
  Forall (fun l => is_header l = false) (split_nl new_content) ->
  apply_patch_to_section
    (apply_patch_to_section markdown section_name new_content)
    section_name new_content
  = apply_patch_to_section markdown section_name new_content.
Proof.
  intros HS HP. apply no_header_forallb in HP.
  destruct (find_section section_name (split_nl markdown)) as [i|] eqn:Hf.
  - assert (has_section markdown section_name) as Hsec.
    { unfold has_section. by rewrite Hf. }
    pose proof (apply_patch_present markdown section_name new_content Hsec) as Hp.
    destruct (_ || _).
    { by rewrite !Hp. }
    rewrite Hp. clear Hp.
    assert (i + 1 <= length (split_nl markdown)) as Hi.
    { apply find_index_lt in Hf. lia. }
    destruct (find_section_end_bounds (split_nl markdown) (i + 1) Hi) as [He1 He2].
    eapply (reapply_unchanged _ _ _
              (take (target_end markdown section_name) (split_nl markdown))
              (if last_line_nonblank (section_lines markdown section_name)
               then [[]] else [])
              (drop (target_end markdown section_name) (split_nl markdown)) i).
    + rewrite appended_lines. by rewrite <- !(assoc_L (++)).
    + apply find_index_take; [done|]. unfold target_end. rewrite Hf. lia.
    + rewrite !forallb_app, HP, andb_true_r.
      apply andb_true_intro. split.
      * unfold target_end. rewrite Hf.
        set (e := find_section_end (split_nl markdown) (i + 1)) in *.
        assert (drop (i + 1) (take e (split_nl markdown))
                = slice (split_nl markdown) (i + 1) e) as ->.
        { unfold slice. rewrite take_drop_commute. do 2 f_equal. lia. }
        apply find_section_end_no_header.
      * by destruct (last_line_nonblank _).
    + unfold target_end. rewrite Hf.
      destruct (decide (find_section_end (split_nl markdown) (i + 1)
                        < length (split_nl markdown))) as [Hlt|Hge].
      * right. by apply find_section_end_header.
      * left. apply drop_ge. lia.
  - assert (~ has_section markdown section_name) as Hno.
    { unfold has_section. rewrite Hf. by intros [x Hx]. }
    rewrite (apply_patch_absent markdown section_name new_content Hno).
    set (sep := if last_line_nonblank (split_nl markdown)
                then [[]] else [] : list str).
    eapply (reapply_unchanged _ _ _
              (split_nl markdown ++ sep ++ [HASH :: HASH :: SPACE :: section_name])
              [[]] [] (length (split_nl markdown) + length sep)).
    + rewrite created_lines by done. fold sep.
      by rewrite app_nil_r, <- !(assoc_L (++)).
    + rewrite find_index_app. fold (find_section section_name (split_nl markdown)).
      rewrite Hf. rewrite find_index_app.
      assert (find_index (is_section_header section_name) sep = None) as ->.
      { unfold sep. by destruct (last_line_nonblank _). }
      simpl. rewrite is_section_header_new_header. simpl.
      f_equal. lia.
    + rewrite (assoc_L (++) (split_nl markdown) sep).
      rewrite drop_app.
      rewrite (drop_ge (split_nl markdown ++ sep)) by (rewrite length_app; lia).
      rewrite length_app.
      replace (length (split_nl markdown) + length sep + 1
               - (length (split_nl markdown) + length sep)) with 1 by lia.
      simpl. done.
    + by left.
Qed.

End Idempotence.

(** * The scenarios, evaluated with the ASCII case tables *)

(** Scenario 1: the identical bullet is already there. *)
Example scenario_identical :
  apply_patch_to_section doc_characters (py "Characters") max_line
  = doc_characters.
Proof. by_eval. Qed.

(** Scenario 3: a bullet with a new name is put after the old one. *)
Example scenario_new_bullet :
  apply_patch_to_section doc_characters (py "Characters") zara_patch
  = doc_characters ++ nl ++ nl ++ zara_patch.
Proof. by_eval. Qed.

(** Scenario 4: a prose line that is already there. *)
Example scenario_prose_line :
  apply_patch_to_section doc_setting (py "Setting")
    (py "A quiet village by the sea.")
  = doc_setting.
Proof. by_eval. Qed.

(** Scenario 6: at a similarity of exactly 4/5 the patch is accepted, both
    by the integer comparison and by the binary64 one. *)
Example scenario_boundary :
  apply_patch_to_section doc_words (py "a") words_patch
  = doc_words ++ nl ++ nl ++ words_patch
  /\ binary64_exceeds_point8 4 5 = false.
Proof. split; by_eval. Qed.

(** Nine shared words out of ten: the similarity rule rejects the patch. *)
Example scenario_similar :
  apply_patch_to_section
    (py "## A" ++ nl ++ py "* one two three four five six seven eight nine")
    (py "a") (py "* nine one two three four five six seven eight ten")
  = py "## A" ++ nl ++ py "* one two three four five six seven eight nine"
  /\ binary64_exceeds_point8 9 10 = true.
Proof. split; by_eval. Qed.

(** C1, as worded, fails: a patch with a header line of its own is added a
    second time, because after the first merge its lines lie past the end
    of the target section. *)
Lemma merge_twice_counterexample :
  apply_patch_to_section
    (apply_patch_to_section doc_a (py "A") header_patch) (py "A") header_patch
  <> apply_patch_to_section doc_a (py "A") header_patch.
Proof. vm_compute. discriminate. Qed.

Lemma merge_idempotent_witness :
  apply_patch_to_section
    (apply_patch_to_section doc_setting (py "setting") village_patch)
    (py "setting") village_patch
  = apply_patch_to_section doc_setting (py "setting") village_patch.
Proof.
  apply (merge_idempotent doc_setting (py "setting") village_patch).
  - by_decide.
  - by_decide.
Defined.

Lemma exact_containment_unchanged_witness :
  contains (strip_blank_lines (nl ++ max_line ++ nl))
           (extract_section doc_characters (py "characters")) = true
  /\ apply_patch_to_section doc_characters (py "characters")
       (nl ++ max_line ++ nl) = doc_characters.
Proof.
  split; [by_eval|].
  apply (exact_containment_unchanged doc_characters (py "characters")
           (nl ++ max_line ++ nl)).
  - exists 0. by_eval.
  - by_eval.
Defined.

Lemma name_match_rejects_witness :
  item_name max_patch_item = py "Max"
  /\ apply_patch_to_section doc_characters (py "Characters") max_patch
     = doc_characters.
Proof.
  split; [by_eval|].
  apply (name_match_rejects doc_characters (py "Characters") max_patch
           max_patch max_line max_patch_item max_item).
  - exists 0. by_eval.
  - by_eval.
  - by_decide.
  - by_eval.
  - by_decide.
  - by_eval.
  - by_eval.
  - by_eval.
Defined.

Lemma similarity_threshold_witness :
  (jaccard (word_set (py "five one two three"))
           (word_set (py "one two three four five")) == 4 # 5)%Q
  /\ similarity_match (py "five one two three")
                      (py "one two three four five") = false.
Proof.
  split; [by_eval|].
  apply (similarity_threshold doc_words (py "a") words_patch words_patch
           (py "* one two three four five")
           (py "five one two three") (py "one two three four five")).
  - exists 0. by_eval.
  - by_eval.
  - by_decide.
  - by_eval.
  - by_decide.
  - by_eval.
  - by_eval.
  - by_eval.
  - by_eval.
  - by_eval.
Defined.

(** C6, as worded, fails: a patch with a header line of its own makes two
    sections, and the new section of the target name is not the last. *)
Lemma created_section_counterexample :
  ~ has_section [] (py "A")
  /\ header_lines [] = []
  /\ header_lines (apply_patch_to_section [] (py "A") header_patch)
     = [py "## A"; py "## B"].
Proof.
  split; [|split; by_eval].
  intros [i Hi]. vm_compute in Hi. discriminate.
Qed.

Lemma absent_section_created_witness :
  apply_patch_to_section doc_setting (py "Ideas-Notes")
    (py "A talking cat appears.")
  = doc_setting ++ nl ++ nl ++ py "## Ideas-Notes" ++ nl ++ nl
    ++ py "A talking cat appears."
  /\ header_lines (apply_patch_to_section doc_setting (py "Ideas-Notes")
                     (py "A talking cat appears."))
     = [py "## Setting"; py "## Ideas-Notes"].
Proof.
  assert (~ has_section doc_setting (py "Ideas-Notes")) as Hno.
  { intros [i Hi]. vm_compute in Hi. discriminate. }
  destruct (absent_section_created doc_setting (py "Ideas-Notes")
              (py "A talking cat appears.") Hno) as [Htext Hheaders].
  split.
  - rewrite Htext. by_eval.
  - rewrite Hheaders; [by_eval|by_decide|by_decide].
Defined.

(** C9, as worded, fails: the first non-blank line of this patch is an
    indented bullet, not a line that begins with the marker; the prose rule
    finds no line of the section equal to it and would add the patch, but
    the merge gives it to the bullet rules and the name rule rejects it. *)
Lemma indented_bullet_counterexample :
  has_section doc_characters (py "Characters")
  /\ contains (strip max_patch_indented)
       (strip (join_nl (section_lines doc_characters (py "Characters"))))
     = false
  /\ startswith (first_nonblank_line max_patch_indented) bullet = false
  /\ prose_duplicate (strip max_patch_indented)
       (strip (join_nl (section_lines doc_characters (py "Characters"))))
     = false
  /\ apply_patch_to_section doc_characters (py "Characters") max_patch_indented
     = doc_characters
  /\ doc_characters
     <> appended doc_characters (py "Characters") max_patch_indented.
Proof.
  split; [exists 0; by_eval|]. repeat (split; [by_eval|]).
  vm_compute. discriminate.
Qed.

Lemma bullet_classification_witness :
  apply_patch_to_section doc_characters (py "Characters") max_patch_indented
  = if bullet_duplicate (split_nl (strip max_patch_indented))
         (section_lines doc_characters (py "Characters"))
    then doc_characters
    else appended doc_characters (py "Characters") max_patch_indented.
Proof.
  apply (bullet_classification doc_characters (py "Characters")
           max_patch_indented).
  - exists 0. by_eval.
  - by_eval.
  - exists (py "  "), (py "Max " ++ emdash ++ py " controls shadow creatures").
    split; [by_eval|]. split; by_eval.
Defined.

Lemma whitespace_patch_unchanged_witness :
  apply_patch_to_section doc_characters (py "characters") (py "  " ++ nl)
  = doc_characters.
Proof.
  apply (whitespace_patch_unchanged doc_characters (py "characters")
           (py "  " ++ nl)).
  - exists 0. by_eval.
  - by_eval.
Defined.

(** * More on the header patterns *)

Lemma is_header_spec line :
  is_header line = true
  <-> exists ws c rest,
        line = ws ++ HASH :: HASH :: c :: rest
        /\ forallb isspace ws = true /\ isspace c = true.
Proof.
  unfold is_header. split.
  - destruct (drop_while_decompose isspace line) as (ws & Hl & Hws).
    destruct (drop_while isspace line) as [|a [|b [|c rest]]]; try done.
    intros [[Ha Hb]%andb_prop Hc]%andb_prop.
    apply N.eqb_eq in Ha, Hb. subst a b. by exists ws, c, rest.
  - intros (ws & c & rest & -> & Hws & Hc).
    rewrite drop_while_all by done.
    change (drop_while isspace (HASH :: HASH :: c :: rest))
      with (HASH :: HASH :: c :: rest).
    cbv beta iota. by rewrite !N.eqb_refl, Hc.
Qed.

Section Patterns.
Context `{Casing}.

Lemma match_literal_spec pat s t :
  match_literal pat s = Some t
  <-> exists name, s = name ++ t /\ map tolower name = map tolower pat.
Proof.
  revert s. induction pat as [|p pat IH]; intros s; simpl.
  - split.
    + intros [= ->]. by exists [].
    + intros (name & -> & Hn). by destruct name.
  - destruct s as [|c s].
    + split; [done|]. intros (name & Hs & Hn). by destruct name.
    + unfold re_ignorecase. destruct (N.eqb_spec (tolower c) (tolower p)) as [Hc|Hc].
      * rewrite IH. split.
        -- intros (name & -> & Hn). exists (c :: name). simpl.
           by rewrite Hc, Hn.
        -- intros (name & Hs & Hn). destruct name as [|c' name]; [done|].
           simpl in *. injection Hs as <- ->. injection Hn as _ Hn.
           by exists name.
      * split; [done|]. intros (name & Hs & Hn).
        destruct name as [|c' name]; [done|].
        simpl in *. injection Hs as <- ->. injection Hn as Hc' _. done.
Qed.

Lemma match_name_tail_spec name r :
  match_name_tail name r = true
  <-> exists name' ws, r = name' ++ ws
                       /\ map tolower name' = map tolower name
                       /\ forallb isspace ws = true.
Proof.
  unfold match_name_tail. split.
  - destruct (match_literal name r) as [t|] eqn:Hm; [|done].
    intros Ht. apply match_literal_spec in Hm as (name' & -> & Hn).
    by exists name', t.
  - intros (name' & ws & -> & Hn & Hws).
    assert (match_literal name (name' ++ ws) = Some ws) as ->; [|done].
    apply match_literal_spec. by exists name'.
Qed.

Lemma match_spaces_name_spec name r :
  match_spaces_name name r = true
  <-> exists ws name' ws', r = ws ++ name' ++ ws'
        /\ ws <> [] /\ forallb isspace ws = true
        /\ map tolower name' = map tolower name
        /\ forallb isspace ws' = true.
Proof.
  induction r as [|c r IH].
  - simpl. split; [done|]. intros (ws & name' & ws' & Hr & Hne & _).
    by destruct ws.
  - change (match_spaces_name name (c :: r))
      with (isspace c && (match_spaces_name name r || match_name_tail name r)).
    rewrite andb_true_iff, orb_true_iff, IH, match_name_tail_spec. split.
    + intros [Hc [(ws & name' & ws' & -> & Hne & Hws & Hn & Hws')
                 |(name' & ws' & -> & Hn & Hws')]].
      * exists (c :: ws), name', ws'. simpl. by rewrite Hc, Hws.
      * exists [c], name', ws'. simpl. by rewrite Hc.
    + intros (ws & name' & ws' & Hr & Hne & Hws & Hn & Hws').
      destruct ws as [|c' ws]; [done|]. simpl in Hr, Hws.
      injection Hr as <- ->. apply andb_prop in Hws as [Hc Hws].
      split; [done|]. destruct ws as [|c'' ws].
      * right. by exists name', ws'.
      * left. by exists (c'' :: ws), name', ws'.
Qed.

(** The header of a section is a header line. *)
Lemma is_section_header_is_header section_name line :
  is_section_header section_name line = true -> is_header line = true.
Proof.
  unfold is_section_header, is_header.
  destruct (drop_while isspace line) as [|a [|b [|c r]]]; try done.
  - by rewrite andb_false_r.
  - intros [Hab Hr]%andb_prop. rewrite Hab.
    change (match_spaces_name section_name (c :: r))
      with (isspace c && (match_spaces_name section_name r
                          || match_name_tail section_name r)) in Hr.
    by apply andb_prop in Hr as [-> _].
Qed.

(** X1: a line is the header of a section name (the [re.match] of both
    functions succeeds) exactly when it is made of whitespace, [##], at
    least one whitespace character, a string that agrees with the name
    after lower-casing each character, and whitespace up to the end. *)
Theorem is_section_header_spec section_name line :
  is_section_header section_name line = true
  <-> exists ws1 ws2 name ws3,
        line = ws1 ++ [HASH; HASH] ++ ws2 ++ name ++ ws3
        /\ forallb isspace ws1 = true
        /\ ws2 <> [] /\ forallb isspace ws2 = true
        /\ map tolower name = map tolower section_name
        /\ forallb isspace ws3 = true.
Proof.
  unfold is_section_header. split.
  - destruct (drop_while_decompose isspace line) as (ws1 & Hl & Hws1).
    destruct (drop_while isspace line) as [|a [|b r]]; try done.
    intros [[Ha Hb]%andb_prop Hr]%andb_prop.
    apply N.eqb_eq in Ha, Hb. subst a b.
    apply match_spaces_name_spec in Hr
      as (ws2 & name & ws3 & -> & Hne & Hws2 & Hn & Hws3).
    by exists ws1, ws2, name, ws3.
  - intros (ws1 & ws2 & name & ws3 & -> & Hws1 & Hne & Hws2 & Hn & Hws3).
    rewrite drop_while_all by done.
    change (drop_while isspace ([HASH; HASH] ++ ws2 ++ name ++ ws3))
      with (HASH :: HASH :: ws2 ++ name ++ ws3).
    cbv beta iota. rewrite !N.eqb_refl. simpl. apply match_spaces_name_spec.
    by exists ws2, name, ws3.
Qed.

End Patterns.

(** * More on the outcome of a merge *)

Section Outcome.
Context `{Casing}.

(** X2: on the bullet path, when the item text of some incoming bullet
    line and the item text of some bullet line of the section are equal
    after lower-casing, whatever their length, the merge returns the
    document unchanged. *)
Theorem exact_match_rejects markdown section_name new_content
    new_line line new_item existing_item :
  has_section markdown section_name ->
  startswith (strip new_content) bullet = true ->
  new_line ∈ split_nl (strip new_content) ->
  bullet_item new_line = Some new_item ->
  line ∈ section_lines markdown section_name ->
  bullet_item line = Some existing_item ->
  lower existing_item = lower new_item ->
  apply_patch_to_section markdown section_name new_content = markdown.
Proof.
  intros Hsec Hb Hn Hni Hl Hei Heq.
  rewrite apply_patch_present by done.
  assert (duplicate_found markdown section_name new_content = true) as ->.
  { unfold duplicate_found. rewrite Hb.
    eapply bullet_duplicate_intro; try done.
    unfold item_duplicate, exact_match.
    by rewrite bool_decide_eq_true_2. }
  by rewrite orb_true_r.
Qed.

Lemma appended_longer markdown section_name new_content :
  appended markdown section_name new_content <> markdown.
Proof.
  intros Heq. apply (f_equal split_nl) in Heq. rewrite appended_lines in Heq.
  apply (f_equal length) in Heq.
  rewrite !length_app, length_take, length_drop in Heq.
  pose proof (split_nl_nonempty new_content) as Hne.
  destruct (split_nl new_content); [done|]. simpl in Heq. lia.
Qed.

Lemma created_longer markdown section_name new_content :
  created markdown section_name new_content <> markdown.
Proof.
  intros Heq. rewrite created_text in Heq. apply (f_equal length) in Heq.
  rewrite !length_app in Heq. simpl in Heq. lia.
Qed.

(** X4: the merge returns the text it was given exactly when the document
    has the section and the patch is rejected (by the containment test or
    by one of the duplicate rules); appending to the section and creating
    the section always change the text, so a caller can tell a rejection
    by comparing the result with the input. *)
Theorem merge_unchanged_iff markdown section_name new_content :
  apply_patch_to_section markdown section_name new_content = markdown
  <-> has_section markdown section_name
      /\ (contains (strip new_content)
                   (strip (join_nl (section_lines markdown section_name)))
          || duplicate_found markdown section_name new_content) = true.
Proof.
  split.
  - intros Heq.
    destruct (find_section section_name (split_nl markdown)) as [i|] eqn:Hf.
    + assert (has_section markdown section_name) as Hsec.
      { unfold has_section. by rewrite Hf. }
      split; [done|]. rewrite apply_patch_present in Heq by done.
      destruct (_ || _); [done|]. by apply appended_longer in Heq.
    + assert (~ has_section markdown section_name) as Hno.
      { unfold has_section. rewrite Hf. by intros [x Hx]. }
      rewrite (apply_patch_absent _ _ _ Hno) in Heq.
      by apply created_longer in Heq.
  - intros [Hsec Hrej]. rewrite apply_patch_present by done. by rewrite Hrej.
Qed.

(** X5: on a document that has the section, the merge gives the same
    result for every casing of the section name. *)
Theorem merge_casing markdown section_name section_name' new_content :
  has_section markdown section_name ->
  map tolower section_name' = map tolower section_name ->
  apply_patch_to_section markdown section_name' new_content
  = apply_patch_to_section markdown section_name new_content.
Proof.
  intros [i Hi] Hc. unfold apply_patch_to_section.
  rewrite (find_section_casing section_name section_name') by done.
  by rewrite Hi.
Qed.

(** X6: a merge into a section that the document has, of a patch none of
    whose lines is a header line, leaves the header lines of the document
    as they are: no section is made, lost or renamed. *)
Theorem merge_keeps_headers markdown section_name new_content :
  has_section markdown section_name ->
  Forall (fun l => is_header l = false) (split_nl new_content) ->
  header_lines (apply_patch_to_section markdown section_name new_content)
  = header_lines markdown.
Proof.
  intros Hsec HP. rewrite apply_patch_present by done.
  destruct (_ || _); [done|]. unfold header_lines.
  rewrite appended_lines, !filter_app.
  rewrite (filter_no_header (split_nl new_content)) by done.
  assert (filter (fun l => is_header l)
            (if last_line_nonblank (section_lines markdown section_name)
             then [[]] else [] : list str) = []) as ->.
  { by destruct (last_line_nonblank _). }
  simpl. rewrite <- filter_app. by rewrite take_drop.
Qed.

End Outcome.

(** * Reading a section after a merge *)

Lemma slice_section_end lines s :
  slice lines s (find_section_end lines s) = section_body (drop s lines).
Proof.
  unfold slice, find_section_end, section_body.
  destruct (find_index is_header (drop s lines)) as [k|].
  - f_equal. lia.
  - apply take_ge. rewrite length_drop. lia.
Qed.

Lemma section_body_no_header body rest :
  forallb (fun l => negb (is_header l)) body = true ->
  section_body (body ++ rest) = body ++ section_body rest.
Proof.
  intros Hbody. unfold section_body. rewrite find_index_app.
  apply find_index_none in Hbody. rewrite Hbody.
  destruct (find_index is_header rest) as [k|]; simpl; [|done].
  rewrite take_app. rewrite take_ge by lia. f_equal. f_equal. lia.
Qed.

Lemma section_body_closed body rest k :
  find_index is_header body = Some k ->
  section_body (body ++ rest) = section_body body.
Proof.
  intros Hk. unfold section_body. rewrite find_index_app, Hk.
  apply find_index_lt in Hk. apply take_app_le. lia.
Qed.

Lemma section_body_forallb rest :
  forallb (fun l => negb (is_header l)) (section_body rest) = true.
Proof.
  unfold section_body.
  destruct (find_index is_header rest) as [k|] eqn:Hk.
  - by apply find_index_some in Hk as (x & _ & _ & Hall).
  - by apply find_index_none.
Qed.

Lemma find_index_exists {A} (f : A -> bool) l i x :
  l !! i = Some x -> f x = true -> exists k, find_index f l = Some k /\ k <= i.
Proof.
  revert i. induction l as [|y l IH]; intros i Hi Hx; [done|]. simpl.
  destruct (f y) eqn:Hy; [exists 0; split; [done|lia]|].
  destruct i as [|i]; simpl in Hi; [congruence|].
  destruct (IH i Hi Hx) as (k & -> & Hk). exists (S k). split; [done|lia].
Qed.

Lemma find_index_take_none {A} (f : A -> bool) l j n :
  find_index f l = Some j -> n <= j -> find_index f (take n l) = None.
Proof.
  intros (x & _ & _ & Hall)%find_index_some Hn. apply find_index_none.
  replace j with (n + (j - n)) in Hall by lia.
  rewrite <- take_take_drop, forallb_app in Hall. by apply andb_prop in Hall as [? _].
Qed.

Lemma find_index_drop {A} (f : A -> bool) l j n :
  find_index f l = Some j -> n <= j -> find_index f (drop n l) = Some (j - n).
Proof.
  revert j n. induction l as [|x l IH]; intros j n; simpl; [done|].
  destruct n as [|n]; simpl.
  - intros Hj _. rewrite Hj. f_equal. lia.
  - destruct (f x); [intros [= <-]; lia|].
    destruct (find_index f l) as [k|]; [|done]. intros [= <-] Hn.
    rewrite (IH k n) by (done || lia). done.
Qed.

Section TrimExtend.
Context {A : Type} (f : A -> bool).

Lemma trim_app_all (l b : list A) :
  forallb f b = true -> trim f (l ++ b) = trim f l.
Proof. intros Hb. by apply (trim_pad f [] l b). Qed.

Lemma trim_cons_all (x : A) (l : list A) :
  f x = true -> trim f (x :: l) = trim f l.
Proof.
  intros Hx. rewrite <- (app_nil_r l) at 1.
  apply (trim_pad f [x] l []); [|done]. simpl. by rewrite Hx.
Qed.

(** Trimming a longer list gives a longer result. *)
Lemma trim_app_extends (l y : list A) : exists z, trim f (l ++ y) = trim f l ++ z.
Proof.
  destruct (decide (trim f l = [])) as [->|Hne]; [by eexists|].
  destruct (trim_decompose f l) as (a & b & Hl & Ha & Hb).
  pose proof (trim_tight f l) as [Ht1 Ht2].
  remember (trim f l) as m eqn:Hm. rewrite Hl. unfold trim.
  rewrite <- !(assoc_L (++)), drop_while_all by done.
  rewrite drop_while_no_lead by (by apply no_lead_app).
  destruct (drop_while_end_keeps f [] m (b ++ y) Ht2 Hne)
    as (q' & _ & _ & _ & Hq).
  simpl in Hq. rewrite Hq. by exists q'.
Qed.

End TrimExtend.

Lemma join_nl_extends x z : exists t, join_nl (x ++ z) = join_nl x ++ t.
Proof.
  destruct (decide (x = [])) as [->|Hx]; [by eexists|].
  destruct (decide (z = [])) as [->|Hz].
  - exists []. by rewrite !app_nil_r.
  - rewrite join_nl_app by done. by eexists.
Qed.

Section ReadBack.
Context `{Casing}.

Lemma section_lines_body markdown section_name i :
  find_section section_name (split_nl markdown) = Some i ->
  section_lines markdown section_name
  = section_body (drop (i + 1) (split_nl markdown)).
Proof.
  intros Hi. unfold section_lines, target_end. rewrite Hi.
  apply slice_section_end.
Qed.

Lemma extract_section_body markdown section_name i :
  find_section section_name (split_nl markdown) = Some i ->
  extract_section markdown section_name
  = join_nl (trim blank (section_body (drop (i + 1) (split_nl markdown)))).
Proof.
  intros Hi. unfold extract_section. rewrite Hi. cbv zeta.
  by rewrite slice_section_end.
Qed.

Lemma find_section_no_header section_name ls :
  forallb (fun l => negb (is_header l)) ls = true ->
  find_section section_name ls = None.
Proof.
  intros Hls. apply find_index_none. rewrite forallb_forall in *.
  intros l Hl. specialize (Hls l Hl).
  destruct (is_section_header section_name l) eqn:Hh; [|done].
  apply is_section_header_is_header in Hh. by rewrite Hh in Hls.
Qed.

(** The lines of the result of an accepted patch, cut after the header of
    the target section. *)
Lemma appended_after_header markdown section_name new_content i :
  find_section section_name (split_nl markdown) = Some i ->
  find_section section_name
    (split_nl (appended markdown section_name new_content)) = Some i
  /\ drop (i + 1) (split_nl (appended markdown section_name new_content))
     = section_lines markdown section_name
       ++ ((if last_line_nonblank (section_lines markdown section_name)
            then [[]] else [])
           ++ split_nl new_content)
       ++ drop (target_end markdown section_name) (split_nl markdown).
Proof.
  intros Hi. rewrite appended_lines.
  assert (i + 1 <= length (split_nl markdown)) as Hlen.
  { apply find_index_lt in Hi. lia. }
  destruct (find_section_end_bounds (split_nl markdown) (i + 1) Hlen) as [He1 He2].
  assert (target_end markdown section_name
          = find_section_end (split_nl markdown) (i + 1)) as He.
  { unfold target_end. by rewrite Hi. }
  assert (section_lines markdown section_name
          = drop (i + 1) (take (target_end markdown section_name)
                            (split_nl markdown))) as Hsl.
  { unfold section_lines. rewrite Hi, He. unfold slice.
    rewrite take_drop_commute. do 2 f_equal. lia. }
  rewrite Hsl, He. split.
  - unfold find_section. rewrite find_index_app.
    by rewrite (find_index_take _ _ i _ Hi) by lia.
  - rewrite drop_app, length_take.
    replace (i + 1 - _ `min` _) with 0 by lia. done.
Qed.

(** X7: a merge only adds to a section: whatever the outcome, the content
    that [extract_section] returns for the target section after the merge
    begins with the content it returned before. *)
Theorem merge_extends_section markdown section_name new_content :
  exists suffix,
    extract_section
      (apply_patch_to_section markdown section_name new_content) section_name
    = extract_section markdown section_name ++ suffix.
Proof.
  destruct (find_section section_name (split_nl markdown)) as [i|] eqn:Hi.
  - assert (has_section markdown section_name) as Hsec.
    { unfold has_section. by rewrite Hi. }
    rewrite apply_patch_present by done.
    destruct (_ || _); [exists []; by rewrite app_nil_r|].
    destruct (appended_after_header markdown section_name new_content i Hi)
      as [Hi' Hdrop].
    rewrite (extract_section_body _ _ i Hi'), (extract_section_body _ _ i Hi).
    rewrite Hdrop, <- (section_lines_body _ _ i Hi).
    rewrite section_body_no_header.
    + destruct (trim_app_extends blank (section_lines markdown section_name)
                  (section_body
                     (((if last_line_nonblank (section_lines markdown section_name)
                        then [[]] else []) ++ split_nl new_content)
                      ++ drop (target_end markdown section_name)
                           (split_nl markdown)))) as [z ->].
      apply join_nl_extends.
    + rewrite (section_lines_body _ _ i Hi). apply section_body_forallb.
  - unfold extract_section at 2. rewrite Hi. by eexists.
Qed.

(** X8: what [extract_section] returns never contains a header line. *)
Theorem extract_section_no_header markdown section_name :
  Forall (fun l => is_header l = false)
         (split_nl (extract_section markdown section_name)).
Proof.
  destruct (find_section section_name (split_nl markdown)) as [i|] eqn:Hi.
  - rewrite (extract_section_body _ _ i Hi).
    set (body := section_body (drop (i + 1) (split_nl markdown))).
    destruct (trim_decompose blank body) as (a & b & Hab & _ & _).
    assert (Forall (fun l => NL ∉ l) body) as Hnl.
    { unfold body, section_body. destruct (find_index _ _).
      - apply Forall_take, Forall_drop, split_nl_elems.
      - apply Forall_drop, split_nl_elems. }
    assert (Forall (fun l => is_header l = false) body) as Hno.
    { apply Forall_forall. intros l Hl.
      pose proof (section_body_forallb (drop (i + 1) (split_nl markdown))) as Hb.
      rewrite forallb_forall in Hb. apply list_elem_of_In in Hl.
      specialize (Hb l Hl). by destruct (is_header l). }
    rewrite Hab in Hnl, Hno. rewrite !Forall_app in Hnl, Hno.
    destruct Hnl as (_ & Hnl & _). destruct Hno as (_ & Hno & _).
    destruct (decide (trim blank body = [])) as [->|Hne].
    + by apply Forall_singleton.
    + by rewrite split_join_lines.
  - unfold extract_section. rewrite Hi. by apply Forall_singleton.
Qed.

End ReadBack.

(** * The other sections after a merge *)

Section OtherSections.
Context `{Casing}.

Lemma section_body_new_header section_name sep rest :
  forallb blank sep = true ->
  forallb (fun l => negb (is_header l)) sep = true ->
  section_body (sep ++ (HASH :: HASH :: SPACE :: section_name) :: rest) = sep.
Proof.
  intros _ Hsep. rewrite section_body_no_header by done.
  unfold section_body. simpl. by rewrite app_nil_r.
Qed.

(** The section of another name, read in a document to whose end a new
    section was added. *)
Lemma extract_section_created markdown section_name new_content other j :
  NL ∉ section_name ->
  find_section other (split_nl markdown) = Some j ->
  extract_section (created markdown section_name new_content) other
  = extract_section markdown other.
Proof.
  intros HS Hj.
  assert (j + 1 <= length (split_nl markdown)) as Hlen.
  { apply find_index_lt in Hj. lia. }
  set (sep := if last_line_nonblank (split_nl markdown)
              then [[]] else [] : list str).
  assert (find_section other
            (split_nl (created markdown section_name new_content)) = Some j)
    as Hj'.
  { rewrite created_lines by done. unfold find_section.
    rewrite find_index_app. unfold find_section in Hj. by rewrite Hj. }
  rewrite (extract_section_body _ _ j Hj'), (extract_section_body _ _ j Hj).
  rewrite created_lines by done. fold sep.
  rewrite drop_app. replace (j + 1 - length (split_nl markdown)) with 0 by lia.
  rewrite drop_0. simpl. set (X := drop (j + 1) (split_nl markdown)).
  destruct (find_index is_header X) as [k|] eqn:Hk.
  - by rewrite (section_body_closed X _ k).
  - apply find_index_none in Hk.
    rewrite section_body_no_header by done.
    rewrite section_body_new_header by (unfold sep; by destruct (last_line_nonblank _)).
    rewrite trim_app_all by (unfold sep; by destruct (last_line_nonblank _)).
    f_equal. f_equal. unfold section_body.
    apply find_index_none in Hk. by rewrite Hk.
Qed.

(** The section of another name, read in a document to one of whose
    sections lines without a header were added. *)
Lemma extract_section_appended markdown section_name new_content other i j :
  Forall (fun l => is_header l = false) (split_nl new_content) ->
  find_section section_name (split_nl markdown) = Some i ->
  find_section other (split_nl markdown) = Some j ->
  j <> i ->
  extract_section (appended markdown section_name new_content) other
  = extract_section markdown other.
Proof.
  intros HP Hi Hj Hne. apply no_header_forallb in HP.
  set (L := split_nl markdown) in *.
  assert (i + 1 <= length L) as Hlen by (apply find_index_lt in Hi; lia).
  destruct (find_section_end_bounds L (i + 1) Hlen) as [He1 He2].
  assert (target_end markdown section_name = find_section_end L (i + 1)) as He.
  { unfold target_end. fold L. by rewrite Hi. }
  set (e := find_section_end L (i + 1)) in *.
  set (added := (if last_line_nonblank (section_lines markdown section_name)
                 then [[]] else [] : list str) ++ split_nl new_content).
  assert (forallb (fun l => negb (is_header l)) added = true) as Hadded.
  { unfold added. rewrite forallb_app, HP.
    by destruct (last_line_nonblank _). }
  assert (split_nl (appended markdown section_name new_content)
          = take e L ++ added ++ drop e L) as Hlines.
  { rewrite appended_lines. fold L. by rewrite He. }
  destruct (find_index_some _ _ _ Hi) as (h & Hh & Hsh & _).
  destruct (find_index_some _ _ _ Hj) as (h2 & Hh2 & Hsh2 & _).
  apply is_section_header_is_header in Hsh, Hsh2.
  assert (j < length L) as Hjlen by (by apply find_index_lt in Hj).
  destruct (decide (j < i)) as [Hlt|Hge].
  - assert (find_section other
              (split_nl (appended markdown section_name new_content)) = Some j)
      as Hj'.
    { rewrite Hlines. unfold find_section. rewrite find_index_app.
      by rewrite (find_index_take _ _ j e Hj) by lia. }
    rewrite (extract_section_body _ _ j Hj'), (extract_section_body _ _ j Hj).
    rewrite Hlines. fold L.
    assert (exists k, find_index is_header (drop (j + 1) (take e L)) = Some k)
      as [k Hk].
    { destruct (find_index_exists is_header (drop (j + 1) (take e L))
                  (i - (j + 1)) h) as (k & Hk & _); [|done|by exists k].
      rewrite lookup_drop, lookup_take_lt by lia.
      by replace (j + 1 + (i - (j + 1))) with i by lia. }
    rewrite drop_app, length_take.
    replace (j + 1 - e `min` length L) with 0 by lia. rewrite drop_0.
    rewrite (section_body_closed _ _ k Hk).
    assert (drop (j + 1) (take e L ++ drop e L)
            = drop (j + 1) (take e L) ++ drop e L) as Hd.
    { rewrite drop_app, length_take.
      replace (j + 1 - e `min` length L) with 0 by lia. by rewrite drop_0. }
    rewrite take_drop in Hd. rewrite Hd.
    by rewrite (section_body_closed _ _ k Hk).
  - assert (e <= j) as Hej.
    { destruct (decide (e <= j)) as [|Hn]; [done|]. exfalso.
      pose proof (find_section_end_no_header L (i + 1)) as Hno. fold e in Hno.
      rewrite forallb_forall in Hno. specialize (Hno h2).
      rewrite Hsh2 in Hno. simpl in Hno. assert (false = true); [|done].
      apply Hno. apply list_elem_of_In.
      apply (list_elem_of_lookup_2 _ (j - (i + 1))). unfold slice.
      rewrite lookup_take_lt, lookup_drop by lia.
      by replace (i + 1 + (j - (i + 1))) with j by lia. }
    assert (find_section other
              (split_nl (appended markdown section_name new_content))
            = Some (e + (length added + (j - e)))) as Hj'.
    { rewrite Hlines. unfold find_section. rewrite find_index_app.
      rewrite (find_index_take_none _ _ j e Hj) by done.
      rewrite find_index_app.
      assert (find_index (is_section_header other) added = None) as ->.
      { by apply (find_section_no_header other). }
      rewrite (find_index_drop _ _ j e Hj) by done. simpl.
      rewrite length_take. do 2 f_equal. lia. }
    rewrite (extract_section_body _ _ _ Hj'), (extract_section_body _ _ j Hj).
    rewrite Hlines. fold L. do 3 f_equal.
    rewrite drop_app, length_take, (drop_ge (take e L))
      by (rewrite length_take; lia).
    rewrite drop_app, (drop_ge added) by lia. simpl.
    rewrite drop_drop. f_equal. lia.
Qed.

(** X9: a merge of a patch none of whose lines is a header line, under a
    section name without a newline, leaves every other section of the
    document as it was: [extract_section] returns the same content after
    the merge as before for every name that selects another header line
    than the target name. *)
Theorem merge_keeps_other_sections markdown section_name new_content other :
  has_section markdown other ->
  find_section other (split_nl markdown)
  <> find_section section_name (split_nl markdown) ->
  NL ∉ section_name ->
  Forall (fun l => is_header l = false) (split_nl new_content) ->
  extract_section
    (apply_patch_to_section markdown section_name new_content) other
  = extract_section markdown other.
Proof.
  intros [j Hj] Hne HS HP.
  destruct (find_section section_name (split_nl markdown)) as [i|] eqn:Hi.
  - assert (has_section markdown section_name) as Hsec.
    { unfold has_section. by rewrite Hi. }
    rewrite apply_patch_present by done.
    destruct (_ || _); [done|].
    apply (extract_section_appended _ _ _ _ i j); try done. congruence.
  - assert (~ has_section markdown section_name) as Hno.
    { unfold has_section. rewrite Hi. by intros [x Hx]. }
    rewrite (apply_patch_absent _ _ _ Hno).
    by apply (extract_section_created _ _ _ _ j).
Qed.

(** X10: reading back a section that the merge has just made gives the
    patch content without its leading and trailing blank lines (for a name
    without a newline and a patch none of whose lines is a header line). *)
Theorem created_section_extracted markdown section_name new_content :
  ~ has_section markdown section_name ->
  NL ∉ section_name ->
  Forall (fun l => is_header l = false) (split_nl new_content) ->
  extract_section
    (apply_patch_to_section markdown section_name new_content) section_name
  = strip_blank_lines new_content.
Proof.
  intros Hno HS HP. apply no_header_forallb in HP.
  rewrite (apply_patch_absent _ _ _ Hno).
  set (sep := if last_line_nonblank (split_nl markdown)
              then [[]] else [] : list str).
  assert (find_section section_name (split_nl markdown) = None) as Hf.
  { destruct (find_section section_name (split_nl markdown)) eqn:Hf; [|done].
    exfalso. apply Hno. unfold has_section. by rewrite Hf. }
  assert (find_section section_name
            (split_nl (created markdown section_name new_content))
          = Some (length (split_nl markdown) + length sep)) as Hi.
  { rewrite created_lines by done. fold sep. unfold find_section.
    rewrite find_index_app. fold (find_section section_name (split_nl markdown)).
    rewrite Hf, find_index_app.
    assert (find_index (is_section_header section_name) sep = None) as ->.
    { unfold sep. by destruct (last_line_nonblank _). }
    simpl. rewrite is_section_header_new_header. simpl. f_equal. lia. }
  rewrite (extract_section_body _ _ _ Hi), created_lines by done. fold sep.
  rewrite drop_app, (drop_ge (split_nl markdown)) by lia.
  rewrite drop_app, (drop_ge sep) by lia. simpl.
  replace (length (split_nl markdown) + length sep + 1
           - length (split_nl markdown) - length sep) with 1 by lia.
  simpl. unfold strip_blank_lines. f_equal.
  assert (section_body ([] :: split_nl new_content) = [] :: split_nl new_content)
    as ->.
  { unfold section_body.
    assert (find_index is_header ([] :: split_nl new_content) = None) as ->;
      [|done].
    apply find_index_none. simpl. done. }
  by apply trim_cons_all.
Qed.

End OtherSections.

(** * The service *)

Lemma no_lead_of_none {A} (f : A -> bool) l :
  forallb (fun x => negb (f x)) l = true -> no_lead f l.
Proof.
  destruct l as [|x l]; [done|]. simpl. intros [Hx _]%andb_prop.
  by destruct (f x).
Qed.

(** A string without whitespace is its own [strip()]. *)
Lemma strip_no_space s :
  forallb (fun c => negb (isspace c)) s = true -> strip s = s.
Proof.
  intros Hs. rewrite strip_is_trim.
  rewrite <- (app_nil_r s) at 1. apply (trim_unique isspace [] s []); [done..|].
  split; apply no_lead_of_none; [done|]. by rewrite forallb_reverse.
Qed.

Lemma digits_no_space u : forallb (fun c => negb (isspace c)) (digits u) = true.
Proof. induction u; simpl; by rewrite ?IHu. Qed.

Lemma str_of_int_no_space n :
  forallb (fun c => negb (isspace c)) (str_of_int n) = true.
Proof.
  unfold str_of_int. destruct (Z.to_int n); simpl; apply digits_no_space.
Qed.

(** Reading in text mode changes nothing in a text without whitespace. *)
Lemma universal_newlines_no_space s :
  forallb (fun c => negb (isspace c)) s = true -> universal_newlines s = s.
Proof.
  induction s as [|c s IH]; [done|]. cbn [forallb].
  intros [Hc Hs]%andb_prop. simpl.
  destruct (N.eqb_spec c CR) as [->|_]; [done|]. by rewrite IH.
Qed.

(** X13: the value that [get_last_updated] serves after
    [update_last_modified] is the decimal writing of the time of the
    update, without any whitespace. *)
Theorem last_updated_round_trip now w :
  get_last_updated (update_last_modified now w) = str_of_int now.
Proof.
  unfold get_last_updated, update_last_modified. simpl.
  rewrite universal_newlines_no_space by apply str_of_int_no_space.
  apply strip_no_space, str_of_int_no_space.
Qed.

Section ServiceFacts.
Context `{Casing}.

(** X15: on a database on which every statement raises, [accept_patch]
    answers 500 and changes nothing: not the database, not the
    last-updated file, not the proposal file. *)
Theorem accept_patch_unusable now patch w :
  db w = Unusable ->
  accept_patch now patch w = (HttpError 500, w).
Proof.
  intros Hdb. unfold accept_patch. rewrite Hdb. simpl.
  destruct w as [d l p]. simpl in Hdb. by subst d.
Qed.

(** Every section of the default document is empty. *)
Lemma extract_section_default section_name :
  extract_section default_markdown section_name = [].
Proof.
  destruct (find_section section_name (split_nl default_markdown))
    as [i|] eqn:Hi.
  - rewrite (extract_section_body _ _ i Hi).
    apply find_index_lt in Hi.
    change (length (split_nl default_markdown)) with 9 in Hi.
    do 9 (destruct i as [|i]; [vm_compute; reflexivity|]). lia.
  - unfold extract_section. by rewrite Hi.
Qed.

(** X17: while the database holds no document (no file, no table, no row,
    or every statement raising), [get_project_section] answers the empty
    string for every section name: every section of the default document
    is empty. *)
Theorem get_project_section_default section_name w :
  (forall markdown, db w <> Rows (Some markdown)) ->
  fst (get_project_section section_name w) = Ok [].
Proof.
  intros Hdb. unfold get_project_section.
  destruct (db w) as [| |[m|]|] eqn:Hd; simpl;
    try (by rewrite extract_section_default).
  by destruct (Hdb m).
Qed.

End ServiceFacts.

(** * Instances of the further properties *)

Lemma exact_match_rejects_witness :
  apply_patch_to_section doc_characters (py "Characters")
    (py "* MAX (SHADOW WIZARD) " ++ emdash ++ py " CAN CONTROL SHADOWS")
  = doc_characters.
Proof.
  apply (exact_match_rejects doc_characters (py "Characters")
           (py "* MAX (SHADOW WIZARD) " ++ emdash ++ py " CAN CONTROL SHADOWS")
           (py "* MAX (SHADOW WIZARD) " ++ emdash ++ py " CAN CONTROL SHADOWS")
           max_line
           (py "MAX (SHADOW WIZARD) " ++ emdash ++ py " CAN CONTROL SHADOWS")
           max_item).
  - exists 0. by_eval.
  - by_eval.
  - by_decide.
  - by_eval.
  - by_decide.
  - by_eval.
  - by_eval.
Defined.

Lemma merge_casing_witness :
  apply_patch_to_section doc_characters (py "CHARACTERS") zara_patch
  = apply_patch_to_section doc_characters (py "characters") zara_patch.
Proof.
  apply (merge_casing doc_characters (py "characters") (py "CHARACTERS")
           zara_patch).
  - exists 0. by_eval.
  - by_eval.
Defined.

Lemma merge_keeps_headers_witness :
  header_lines (apply_patch_to_section doc_story (py "Characters") zara_patch)
  = [py "## Characters"; py "## Setting"].
Proof.
  rewrite (merge_keeps_headers doc_story (py "Characters") zara_patch).
  - by_eval.
  - exists 0. by_eval.
  - by_decide.
Defined.

Lemma merge_keeps_other_sections_witness :
  extract_section
    (apply_patch_to_section doc_story (py "Characters") zara_patch)
    (py "Setting")
  = py "A quiet village by the sea.".
Proof.
  rewrite (merge_keeps_other_sections doc_story (py "Characters") zara_patch
             (py "Setting")).
  - by_eval.
  - exists 4. by_eval.
  - vm_compute. discriminate.
  - by_decide.
  - by_decide.
Defined.

Lemma created_section_extracted_witness :
  extract_section
    (apply_patch_to_section doc_setting (py "Ideas-Notes")
       (nl ++ py "A talking cat appears." ++ nl))
    (py "Ideas-Notes")
  = py "A talking cat appears.".
Proof.
  rewrite (created_section_extracted doc_setting (py "Ideas-Notes")
             (nl ++ py "A talking cat appears." ++ nl)).
  - by_eval.
  - intros [i Hi]. vm_compute in Hi. discriminate.
  - by_decide.
  - by_decide.
Defined.

Lemma accept_patch_unusable_witness :
  accept_patch 1700000000 zara_request world_broken
  = (HttpError 500, world_broken).
Proof.
  apply (accept_patch_unusable 1700000000 zara_request world_broken).
  reflexivity.
Defined.

Lemma get_project_section_default_witness :
  fst (get_project_section (py "Characters") world_fresh) = Ok [].
Proof.
  apply (get_project_section_default (py "Characters") world_fresh).
  intros markdown Hdb. discriminate Hdb.
Defined.

(** A first request on a fresh installation: the default document is
    made, the bullet is put at the end of its last section, and the
    proposal file names the root. *)
Example scenario_first_request :
  snd (accept_patch 1700000000 zara_request world_fresh)
  = {| db := Rows (Some (default_markdown ++ nl ++ zara_patch));
       last_update_file := Text (py "1700000000");
       proposal_file :=
         Some (py "### Characters / (root)" ++ nl ++ nl ++ zara_patch) |}.
Proof. by_eval. Qed.

(** * The merge as a function of the lines *)

Lemma section_body_split rest :
  exists Z, rest = section_body rest ++ Z /\ section_closed Z = true.
Proof.
  unfold section_body.
  destruct (find_index is_header rest) as [k|] eqn:Hk.
  - apply find_index_some in Hk as (x & Hx & Hfx & _).
    exists (drop k rest). split; [by rewrite take_drop|].
    by rewrite (drop_S _ _ _ Hx).
  - exists []. by rewrite app_nil_r.
Qed.

Lemma section_body_closed_rest body Z :
  forallb (fun l => negb (is_header l)) body = true ->
  section_closed Z = true ->
  section_body (body ++ Z) = body.
Proof.
  intros Hbody HZ. rewrite section_body_no_header by done.
  unfold section_body. destruct Z as [|z Z]; simpl in *.
  - by rewrite app_nil_r.
  - rewrite HZ. simpl. by rewrite app_nil_r.
Qed.

Lemma find_index_closed_rest body Z :
  forallb (fun l => negb (is_header l)) body = true ->
  section_closed Z = true ->
  match find_index is_header (body ++ Z) with
  | Some k => k = length body
  | None => Z = []
  end.
Proof.
  intros Hbody HZ. rewrite find_index_app.
  apply find_index_none in Hbody. rewrite Hbody.
  destruct Z as [|z Z]; simpl in *; [done|]. rewrite HZ. simpl. lia.
Qed.

Section OnLines.
Context `{Casing}.

(** A document cut around the section that a name selects. *)
Lemma section_decompose section_name lines i :
  find_section section_name lines = Some i ->
  exists h Z,
    lines = take i lines ++ h :: section_body (drop (i + 1) lines) ++ Z
    /\ find_section section_name (take i lines) = None
    /\ is_section_header section_name h = true
    /\ section_closed Z = true.
Proof.
  intros Hi. destruct (find_index_some _ _ _ Hi) as (h & Hh & Hsh & Hbefore).
  destruct (section_body_split (drop (i + 1) lines)) as (Z & HZ & Hclosed).
  exists h, Z. split; [|split; [|done]].
  - rewrite <- HZ. replace (i + 1) with (S i) by lia.
    by rewrite take_drop_middle.
  - by apply find_index_none.
Qed.

(** The merge on a text whose lines are: lines without the header of the
    section, that header, lines without a header, and a rest that is
    empty or begins with a header. *)
Lemma apply_on_lines text section_name new_content A h body Z :
  split_nl text = A ++ h :: body ++ Z ->
  find_section section_name A = None ->
  is_section_header section_name h = true ->
  forallb (fun l => negb (is_header l)) body = true ->
  section_closed Z = true ->
  apply_patch_to_section text section_name new_content
  = join_nl (A ++ h :: body ++ insertion body new_content ++ Z).
Proof.
  intros Hsplit HA Hh Hbody HZ.
  assert (find_section section_name (split_nl text) = Some (length A)) as Hf.
  { rewrite Hsplit. unfold find_section in *. rewrite find_index_app, HA.
    simpl. rewrite Hh. simpl. f_equal. lia. }
  assert (drop (length A + 1) (split_nl text) = body ++ Z) as Hdrop.
  { rewrite Hsplit, drop_app, drop_ge by lia.
    by replace (length A + 1 - length A) with 1 by lia. }
  assert (section_lines text section_name = body) as Hsl.
  { rewrite (section_lines_body _ _ _ Hf), Hdrop.
    by apply section_body_closed_rest. }
  assert (target_end text section_name = length A + 1 + length body) as He.
  { unfold target_end, find_section_end. rewrite Hf, Hdrop.
    pose proof (find_index_closed_rest body Z Hbody HZ) as Hk.
    destruct (find_index is_header (body ++ Z)) as [k|].
    - by rewrite Hk.
    - rewrite Hk in Hsplit. rewrite Hsplit, length_app. simpl.
      rewrite app_nil_r. lia. }
  assert (has_section text section_name) as Hsec.
  { unfold has_section. by rewrite Hf. }
  rewrite apply_patch_present by done.
  unfold duplicate_found, appended, insertion, rejected.
  rewrite Hsl, He. cbv zeta.
  destruct (_ || _).
  - simpl. by rewrite <- Hsplit, join_split.
  - rewrite Hsplit.
    replace (A ++ h :: body ++ Z) with ((A ++ h :: body) ++ Z)
      by (by rewrite <- (assoc_L (++))).
    rewrite take_app_length', drop_app_length'
      by (rewrite length_app; simpl; lia).
    by rewrite <- !(assoc_L (++)).
Qed.

Lemma insertion_no_header body new_content :
  forallb (fun l => negb (is_header l)) (split_nl new_content) = true ->
  forallb (fun l => negb (is_header l)) (insertion body new_content) = true.
Proof.
  intros HP. unfold insertion. destruct (rejected _ _); [done|].
  rewrite forallb_app, HP. by destruct (last_line_nonblank _).
Qed.

Lemma insertion_no_newline body new_content :
  Forall (fun l => NL ∉ l) (insertion body new_content).
Proof.
  unfold insertion. destruct (rejected _ _); [done|].
  apply Forall_app. split; [|apply split_nl_elems].
  destruct (last_line_nonblank _); [|done].
  apply Forall_singleton, not_elem_of_nil.
Qed.

(** Two merges, the first into the earlier of two sections. *)
Lemma merge_ordered markdown name1 name2 content1 content2 i1 i2 :
  find_section name1 (split_nl markdown) = Some i1 ->
  find_section name2 (split_nl markdown) = Some i2 ->
  i1 < i2 ->
  forallb (fun l => negb (is_header l)) (split_nl content1) = true ->
  forallb (fun l => negb (is_header l)) (split_nl content2) = true ->
  exists A h1 b1 M h2 b2 Z,
    apply_patch_to_section
      (apply_patch_to_section markdown name1 content1) name2 content2
    = join_nl (A ++ h1 :: b1 ++ insertion b1 content1
               ++ M ++ h2 :: b2 ++ insertion b2 content2 ++ Z)
    /\ apply_patch_to_section
         (apply_patch_to_section markdown name2 content2) name1 content1
       = join_nl (A ++ h1 :: b1 ++ insertion b1 content1
                  ++ M ++ h2 :: b2 ++ insertion b2 content2 ++ Z).
Proof.
  intros Hi1 Hi2 Hlt HP1 HP2.
  set (L := split_nl markdown) in *.
  destruct (section_decompose name1 L i1 Hi1) as (h1 & Z1 & HL & HA & Hh1 & HZ1).
  set (A := take i1 L) in *. set (b1 := section_body (drop (i1 + 1) L)) in *.
  assert (forallb (fun l => negb (is_header l)) b1 = true) as Hb1
    by apply section_body_forallb.
  assert (length A = i1) as HlenA.
  { unfold A. rewrite length_take. apply find_index_lt in Hi1. fold L in Hi1. lia. }
  (* the header of the second section lies in the rest *)
  destruct (find_index_some _ _ _ Hi2) as (h2 & Hh2 & Hsh2 & _).
  pose proof (is_section_header_is_header _ _ Hsh2) as Hhh2.
  assert (length A + 1 + length b1 <= i2) as Hi2'.
  { destruct (decide (length A + 1 + length b1 <= i2)) as [|Hn]; [done|].
    exfalso. rewrite HL in Hh2.
    rewrite lookup_app_r in Hh2 by lia.
    destruct (i2 - length A) as [|k] eqn:Hk; [lia|]. simpl in Hh2.
    rewrite lookup_app_l in Hh2 by lia.
    rewrite forallb_forall in Hb1. specialize (Hb1 h2).
    rewrite Hhh2 in Hb1. assert (false = true); [|done].
    apply Hb1, list_elem_of_In. by eapply list_elem_of_lookup_2. }
  assert (L = (A ++ h1 :: b1) ++ Z1) as HL'
    by (by rewrite <- (assoc_L (++))).
  assert (length (A ++ h1 :: b1) = length A + 1 + length b1) as Hlen1.
  { rewrite length_app. simpl. lia. }
  assert (find_section name2 (A ++ h1 :: b1) = None) as Hpre2.
  { pose proof (find_index_take_none _ _ _ (length (A ++ h1 :: b1)) Hi2) as Hn.
    rewrite HL' in Hn at 1. rewrite take_app_length in Hn. apply Hn. lia. }
  assert (find_section name2 Z1
          = Some (i2 - length (A ++ h1 :: b1))) as Hi2Z.
  { pose proof (find_index_drop _ _ _ (length (A ++ h1 :: b1)) Hi2) as Hd.
    rewrite HL' in Hd at 1. rewrite drop_app_length in Hd. apply Hd. lia. }
  destruct (section_decompose name2 Z1 _ Hi2Z) as (h2' & Z & HZ1' & HM & Hh2' & HZ).
  set (M := take (i2 - length (A ++ h1 :: b1)) Z1) in *.
  set (b2 := section_body (drop (i2 - length (A ++ h1 :: b1) + 1) Z1)) in *.
  assert (forallb (fun l => negb (is_header l)) b2 = true) as Hb2
    by apply section_body_forallb.
  exists A, h1, b1, M, h2', b2, Z.
  assert (Forall (fun l => NL ∉ l) L) as HnlL by apply split_nl_elems.
  assert (Forall (fun l => NL ∉ l) (A ++ h1 :: b1)
          /\ Forall (fun l => NL ∉ l) (M ++ h2' :: b2 ++ Z)) as [Hnl1 Hnl2].
  { rewrite HL', HZ1' in HnlL. by apply Forall_app in HnlL. }
  assert (section_closed (M ++ h2' :: b2 ++ insertion b2 content2 ++ Z) = true)
    as Hclosed1.
  { rewrite HZ1' in HZ1. destruct M as [|m M']; simpl in *; [|done].
    by apply (is_section_header_is_header name2). }
  split.
  - (* first into the earlier section, then into the later one *)
    rewrite (apply_on_lines markdown name1 content1 A h1 b1 Z1)
      by (done || by rewrite <- HL).
    rewrite (apply_on_lines _ name2 content2
               (A ++ h1 :: b1 ++ insertion b1 content1 ++ M) h2' b2 Z).
    + list_assoc.
    + rewrite split_join_lines.
      * rewrite HZ1'. list_assoc.
      * by destruct A.
      * rewrite HZ1'. apply Forall_app in Hnl1 as [HnA Hnb].
        apply Forall_app. split; [done|].
        apply Forall_cons in Hnb as [Hnh Hnb]. apply Forall_cons. split; [done|].
        apply Forall_app. split; [done|].
        apply Forall_app. split; [apply insertion_no_newline|done].
    + replace (A ++ h1 :: b1 ++ insertion b1 content1 ++ M)
        with ((A ++ h1 :: b1) ++ insertion b1 content1 ++ M)
        by (by rewrite <- (assoc_L (++))).
      pose proof (find_section_no_header name2 (insertion b1 content1)
                    (insertion_no_header b1 content1 HP1)) as Hins.
      unfold find_section in *. rewrite find_index_app, Hpre2.
      by rewrite find_index_app, Hins, HM.
    + done.
    + done.
    + done.
  - (* first into the later section, then into the earlier one *)
    rewrite (apply_on_lines markdown name2 content2
               ((A ++ h1 :: b1) ++ M) h2' b2 Z).
    + rewrite (apply_on_lines _ name1 content1 A h1 b1
                 (M ++ h2' :: b2 ++ insertion b2 content2 ++ Z)).
      * done.
      * rewrite split_join_lines.
        -- list_assoc.
        -- by destruct A.
        -- apply Forall_app in Hnl2 as [HnM Hnr].
           apply Forall_cons in Hnr as [Hnh Hnr].
           apply Forall_app in Hnr as [Hnb HnZ].
           apply Forall_app. split; [by apply Forall_app|].
           apply Forall_cons. split; [done|].
           apply Forall_app. split; [done|].
           apply Forall_app. split; [apply insertion_no_newline|done].
      * done.
      * done.
      * done.
      * done.
    + fold L. rewrite HL' at 1. rewrite HZ1'. list_assoc.
    + unfold find_section in *. by rewrite find_index_app, Hpre2, HM.
    + done.
    + done.
    + done.
Qed.

(** X18: merges into two different sections that the document has, of
    patches none of whose lines is a header line, can be made in either
    order: the resulting text is the same. *)
Theorem merge_commute markdown name1 name2 content1 content2 :
  has_section markdown name1 ->
  has_section markdown name2 ->
  find_section name1 (split_nl markdown)
  <> find_section name2 (split_nl markdown) ->
  Forall (fun l => is_header l = false) (split_nl content1) ->
  Forall (fun l => is_header l = false) (split_nl content2) ->
  apply_patch_to_section
    (apply_patch_to_section markdown name1 content1) name2 content2
  = apply_patch_to_section
      (apply_patch_to_section markdown name2 content2) name1 content1.
Proof.
  intros [i1 Hi1] [i2 Hi2] Hne HP1 HP2.
  apply no_header_forallb in HP1, HP2.
  destruct (decide (i1 < i2)) as [Hlt|Hge].
  - destruct (merge_ordered markdown name1 name2 content1 content2 i1 i2)
      as (A & h1 & b1 & M & h2 & b2 & Z & -> & ->); done.
  - assert (i2 < i1) as Hlt.
    { destruct (decide (i1 = i2)) as [->|]; [|lia]. congruence. }
    destruct (merge_ordered markdown name2 name1 content2 content1 i2 i1)
      as (A & h1 & b1 & M & h2 & b2 & Z & -> & ->); done.
Qed.

End OnLines.

(** * A patch is not added twice *)

(** A run with nothing to strip that occurs in a text occurs in the
    stripped text. *)
Lemma contains_tight m z :
  tight isspace m -> contains m z = true -> contains m (strip z) = true.
Proof.
  intros Hm (u & v & ->)%contains_spec.
  destruct (decide (m = [])) as [->|Hne]; [apply contains_nil|].
  rewrite strip_is_trim.
  destruct (trim_keeps isspace u m v Hm Hne) as (p' & q' & ->).
  apply contains_spec. by exists p', q'.
Qed.

Lemma contains_strip_extends x y t :
  contains (strip x) (strip y) = true ->
  contains (strip x) (strip (y ++ t)) = true.
Proof.
  intros (u & v & Hy)%contains_spec.
  apply contains_tight; [rewrite strip_is_trim; apply trim_tight|].
  destruct (trim_decompose isspace y) as (a & b & Hab & _ & _).
  rewrite <- strip_is_trim, Hy in Hab.
  apply contains_spec. exists (a ++ u), (v ++ b ++ t).
  rewrite Hab at 1. by rewrite <- !(assoc_L (++)).
Qed.

Lemma nonblank_trimmed_app ls ks :
  nonblank_trimmed (ls ++ ks) = nonblank_trimmed ls ++ nonblank_trimmed ks.
Proof. unfold nonblank_trimmed. by rewrite map_app, filter_app. Qed.

Section NeverTwice.
Context `{Casing}.

Lemma bullet_duplicate_extends new_lines body more :
  bullet_duplicate new_lines body = true ->
  bullet_duplicate new_lines (body ++ more) = true.
Proof.
  intros (new_line & line & new_item & existing_item
          & Hn & Hni & Hl & Hei & Hdup)%bullet_duplicate_elim.
  apply (bullet_duplicate_intro _ _ new_line line new_item existing_item);
    try done.
  apply elem_of_app. by left.
Qed.

Lemma prose_duplicate_extends new_content_clean body more :
  Forall (fun l => NL ∉ l) body -> Forall (fun l => NL ∉ l) more ->
  prose_duplicate new_content_clean (strip (join_nl body)) = true ->
  prose_duplicate new_content_clean (strip (join_nl (body ++ more))) = true.
Proof.
  intros Hbody Hmore. unfold prose_duplicate.
  rewrite !stripped_lines_strip.
  rewrite !stripped_lines_join by (done || by apply Forall_app).
  rewrite nonblank_trimmed_app.
  intros (l & Hl & Hin)%existsb_exists. apply existsb_exists. exists l.
  split; [done|]. apply bool_decide_eq_true_1 in Hin.
  apply bool_decide_eq_true_2, elem_of_app. by left.
Qed.

(** A patch that the lines of a section reject is rejected when lines
    are added to the section. *)
Lemma rejected_extends body more new_content :
  Forall (fun l => NL ∉ l) body -> Forall (fun l => NL ∉ l) more ->
  rejected body new_content = true ->
  rejected (body ++ more) new_content = true.
Proof.
  intros Hbody Hmore. unfold rejected.
  intros [Hc|Hd]%orb_true_iff; apply orb_true_iff.
  - left. destruct (join_nl_extends body more) as [t ->].
    by apply contains_strip_extends.
  - right. destruct (startswith (strip new_content) bullet).
    + by apply bullet_duplicate_extends.
    + by apply prose_duplicate_extends.
Qed.

(** The lines of the patch at the end of a section make the merge reject
    the patch. *)
Lemma rejected_after_patch body new_content :
  rejected (body ++ split_nl new_content) new_content = true.
Proof.
  unfold rejected. apply orb_true_iff. left. apply contains_strip.
  destruct (join_nl_extends body (split_nl new_content)) as [t Ht].
  destruct (decide (body = [])) as [->|Hne].
  - simpl. rewrite join_split. apply (contains_app_r []).
  - rewrite join_nl_app by (done || apply split_nl_nonempty).
    rewrite join_split.
    replace (join_nl body ++ NL :: new_content)
      with ((join_nl body ++ [NL]) ++ new_content) by list_assoc.
    apply contains_app_r.
Qed.

Lemma settled_unchanged text section_name new_content :
  settled text section_name new_content ->
  apply_patch_to_section text section_name new_content = text.
Proof.
  intros (A & h & body & Z & Hsplit & HA & Hh & Hbody & HZ & Hrej).
  rewrite (apply_on_lines _ _ _ A h body Z) by done.
  unfold insertion. rewrite Hrej. simpl. by rewrite <- Hsplit, join_split.
Qed.

Lemma settled_preserved text section_name new_content other_content :
  Forall (fun l => is_header l = false) (split_nl other_content) ->
  settled text section_name new_content ->
  settled (apply_patch_to_section text section_name other_content)
          section_name new_content.
Proof.
  intros HQ (A & h & body & Z & Hsplit & HA & Hh & Hbody & HZ & Hrej).
  apply no_header_forallb in HQ.
  pose proof (split_nl_elems text) as Hnl. rewrite Hsplit in Hnl.
  apply Forall_app in Hnl as [HnA Hnl].
  apply Forall_cons in Hnl as [Hnh Hnl].
  apply Forall_app in Hnl as [Hnb HnZ].
  exists A, h, (body ++ insertion body other_content), Z.
  split; [|split; [done|split; [done|split; [|split; [done|]]]]].
  - rewrite (apply_on_lines _ _ _ A h body Z) by done.
    rewrite split_join_lines.
    + list_assoc.
    + by destruct A.
    + apply Forall_app. split; [done|]. apply Forall_cons. split; [done|].
      apply Forall_app. split; [done|].
      apply Forall_app. split; [apply insertion_no_newline|done].
  - rewrite forallb_app, Hbody. by apply insertion_no_header.
  - apply rejected_extends; [done|apply insertion_no_newline|done].
Qed.

Lemma settled_after_merge markdown section_name new_content :
  NL ∉ section_name ->
  Forall (fun l => is_header l = false) (split_nl new_content) ->
  settled (apply_patch_to_section markdown section_name new_content)
          section_name new_content.
Proof.
  intros HS HP. pose proof (no_header_forallb _ HP) as HP'.
  destruct (find_section section_name (split_nl markdown)) as [i|] eqn:Hi.
  - destruct (section_decompose _ _ _ Hi) as (h & Z & HL & HA & Hh & HZ).
    set (A := take i (split_nl markdown)) in *.
    set (body := section_body (drop (i + 1) (split_nl markdown))) in *.
    assert (forallb (fun l => negb (is_header l)) body = true) as Hbody
      by apply section_body_forallb.
    pose proof (split_nl_elems markdown) as Hnl. rewrite HL in Hnl.
    apply Forall_app in Hnl as [HnA Hnl].
    apply Forall_cons in Hnl as [Hnh Hnl].
    apply Forall_app in Hnl as [Hnb HnZ].
    exists A, h, (body ++ insertion body new_content), Z.
    split; [|split; [done|split; [done|split; [|split; [done|]]]]].
    + rewrite (apply_on_lines _ _ _ A h body Z) by done.
      rewrite split_join_lines.
      * list_assoc.
      * by destruct A.
      * apply Forall_app. split; [done|]. apply Forall_cons. split; [done|].
        apply Forall_app. split; [done|].
        apply Forall_app. split; [apply insertion_no_newline|done].
    + rewrite forallb_app, Hbody. by apply insertion_no_header.
    + unfold insertion. destruct (rejected body new_content) eqn:Hrej.
      * by rewrite app_nil_r.
      * rewrite (assoc_L (++)). apply rejected_after_patch.
  - assert (~ has_section markdown section_name) as Hno.
    { unfold has_section. rewrite Hi. by intros [x Hx]. }
    rewrite (apply_patch_absent _ _ _ Hno).
    set (sep := if last_line_nonblank (split_nl markdown)
                then [[]] else [] : list str).
    exists (split_nl markdown ++ sep), (HASH :: HASH :: SPACE :: section_name),
      ([] :: split_nl new_content), [].
    split; [|split; [|split; [|split; [|split; [done|]]]]].
    + rewrite created_lines by done. fold sep. rewrite app_nil_r. list_assoc.
    + unfold find_section in *. rewrite find_index_app, Hi.
      unfold sep. by destruct (last_line_nonblank _).
    + apply is_section_header_new_header.
    + simpl. done.
    + apply (rejected_after_patch [[]]).
Qed.

(** X19: once a patch has been merged into a section (for a name without
    a newline and patches none of whose lines is a header line), merging
    it again changes nothing, also after any number of other patches have
    been merged into the same section in between. *)
Theorem merge_never_twice markdown section_name new_content patches :
  NL ∉ section_name ->
  Forall (fun l => is_header l = false) (split_nl new_content) ->
  Forall (fun other =>
            Forall (fun l => is_header l = false) (split_nl other)) patches ->
  apply_patch_to_section
    (apply_patches
       (apply_patch_to_section markdown section_name new_content)
       section_name patches)
    section_name new_content
  = apply_patches
      (apply_patch_to_section markdown section_name new_content)
      section_name patches.
Proof.
  intros HS HP Hall. apply settled_unchanged.
  pose proof (settled_after_merge markdown section_name new_content HS HP)
    as Hsettled.
  revert Hsettled.
  generalize (apply_patch_to_section markdown section_name new_content).
  induction Hall as [|other patches Hother _ IH]; intros text Hsettled;
    [done|].
  simpl. apply IH. by apply settled_preserved.
Qed.

End NeverTwice.

Lemma merge_commute_witness :
  apply_patch_to_section
    (apply_patch_to_section doc_story (py "Characters") zara_patch)
    (py "Setting") harbour_patch
  = apply_patch_to_section
      (apply_patch_to_section doc_story (py "Setting") harbour_patch)
      (py "Characters") zara_patch.
Proof.
  apply (merge_commute doc_story (py "Characters") (py "Setting")
           zara_patch harbour_patch).
  - exists 0. by_eval.
  - exists 4. by_eval.
  - vm_compute. discriminate.
  - by_decide.
  - by_decide.
Defined.

Lemma merge_never_twice_witness :
  apply_patch_to_section
    (apply_patches
       (apply_patch_to_section doc_characters (py "Characters") zara_patch)
       (py "Characters") [max_patch; harbour_patch])
    (py "Characters") zara_patch
  = apply_patches
      (apply_patch_to_section doc_characters (py "Characters") zara_patch)
      (py "Characters") [max_patch; harbour_patch].
Proof.
  apply (merge_never_twice doc_characters (py "Characters") zara_patch
           [max_patch; harbour_patch]).
  - by_decide.
  - by_decide.
  - by_decide.
Defined.


(** * The merge and the reading on a cut document *)

Lemma forallb_pointwise {A} (f g : A -> bool) l :
  (forall x, f x = g x) -> forallb f l = forallb g l.
Proof. intros Hfg. induction l as [|x l IH]; simpl; [done|]. by rewrite Hfg, IH. Qed.

Lemma drop_while_pointwise {A} (f g : A -> bool) l :
  (forall x, f x = g x) -> drop_while f l = drop_while g l.
Proof. intros Hfg. induction l as [|x l IH]; simpl; [done|]. by rewrite Hfg, IH. Qed.

Lemma trim_pointwise {A} (f g : A -> bool) l :
  (forall x, f x = g x) -> trim f l = trim g l.
Proof.
  intros Hfg. unfold trim, drop_while_end.
  by rewrite !(drop_while_pointwise f g).
Qed.

(** A blank line is one made of whitespace only. *)
Lemma trim_blank ls : trim blank ls = trim (forallb isspace) ls.
Proof. apply trim_pointwise, blank_spec. Qed.

Lemma separator_spec body :
  (if last_line_nonblank body then [[]] else []) = separator body.
Proof.
  unfold last_line_nonblank, separator. destruct (last body) as [l|]; [|done].
  pose proof (blank_spec l) as Hb. unfold blank in Hb.
  rewrite <- Hb. by destruct (truthy (strip l)).
Qed.

Lemma separator_no_header body :
  Forall (fun l => is_header l = false) (separator body).
Proof.
  unfold separator. destruct (last body) as [l|]; [|done].
  destruct (forallb isspace l); [done|]. by apply Forall_singleton.
Qed.

Lemma separator_no_newline body : Forall (fun l => NL ∉ l) (separator body).
Proof.
  unfold separator. destruct (last body) as [l|]; [|done].
  destruct (forallb isspace l); [done|].
  apply Forall_singleton, not_elem_of_nil.
Qed.

Lemma forallb_negb_Forall {A} (f : A -> bool) l :
  forallb (fun x => negb (f x)) l = true <-> Forall (fun x => f x = false) l.
Proof.
  induction l as [|x l IH]; simpl; [done|].
  rewrite andb_true_iff, Forall_cons, IH.
  destruct (f x); simpl; intuition congruence.
Qed.

Lemma forallb_true_Forall {A} (f : A -> bool) l :
  forallb f l = true <-> Forall (fun x => f x = true) l.
Proof.
  induction l as [|x l IH]; simpl; [done|].
  by rewrite andb_true_iff, Forall_cons, IH.
Qed.

(** The test of the prose branch, on lines without a newline. *)
Lemma prose_duplicate_body new_content body :
  Forall (fun l => NL ∉ l) body ->
  prose_duplicate (strip new_content) (strip (join_nl body)) = true
  <-> exists l, l ∈ nonblank_trimmed (split_nl new_content)
                /\ l ∈ nonblank_trimmed body.
Proof.
  intros Hbody. unfold prose_duplicate. rewrite !stripped_lines_strip.
  rewrite stripped_lines_join by done.
  rewrite existsb_exists. split.
  - intros (l & Hl & Hin). exists l. apply list_elem_of_In in Hl.
    by apply bool_decide_eq_true_1 in Hin.
  - intros (l & Hl & Hin). exists l. split; [by apply list_elem_of_In|].
    by apply bool_decide_eq_true_2.
Qed.

(** No shared line, decided by evaluation. *)
Lemma no_shared_line (ls ks : list str) :
  existsb (fun l => bool_decide (l ∈ ks)) ls = false ->
  ~ (exists l, l ∈ ls /\ l ∈ ks).
Proof.
  intros Hnone (l & Hl & Hin).
  assert (existsb (fun l => bool_decide (l ∈ ks)) ls = true); [|congruence].
  apply existsb_exists. exists l. split; [by apply list_elem_of_In|].
  by apply bool_decide_eq_true_2.
Qed.

Section OnCut.
Context `{Casing}.

Lemma section_cut_find section_name lines A h body Z :
  section_cut section_name lines A h body Z ->
  find_section section_name lines = Some (length A)
  /\ find_section section_name A = None
  /\ forallb (fun l => negb (is_header l)) body = true
  /\ drop (length A + 1) lines = body ++ Z.
Proof.
  intros (-> & HA & Hh & Hbody & HZ).
  assert (find_section section_name A = None) as HfA.
  { apply find_index_none. by apply forallb_negb_Forall. }
  split; [|split; [done|split]].
  - unfold find_section in *. rewrite find_index_app, HfA. simpl.
    rewrite Hh. simpl. f_equal. lia.
  - by apply forallb_negb_Forall.
  - rewrite drop_app, drop_ge by lia.
    by replace (length A + 1 - length A) with 1 by lia.
Qed.

Lemma section_cut_no_newline section_name text A h body Z :
  section_cut section_name (split_nl text) A h body Z ->
  Forall (fun l => NL ∉ l) A /\ (NL ∉ h)
  /\ Forall (fun l => NL ∉ l) body /\ Forall (fun l => NL ∉ l) Z.
Proof.
  intros (Hsplit & _). pose proof (split_nl_elems text) as Hnl.
  rewrite Hsplit in Hnl.
  apply Forall_app in Hnl as [HnA Hnl].
  apply Forall_cons in Hnl as [Hnh Hnl].
  by apply Forall_app in Hnl as [Hnb HnZ].
Qed.

(** The section that a name selects, as a cut. *)
Lemma section_cut_of_find section_name lines i :
  find_section section_name lines = Some i ->
  exists A h body Z,
    section_cut section_name lines A h body Z /\ length A = i.
Proof.
  intros Hi. destruct (section_decompose _ _ _ Hi) as (h & Z & HL & HA & Hh & HZ).
  exists (take i lines), h, (section_body (drop (i + 1) lines)), Z.
  split; [split; [done|split; [|split; [done|split; [|done]]]]|].
  - apply forallb_negb_Forall. by apply find_index_none.
  - apply forallb_negb_Forall, section_body_forallb.
  - apply find_index_lt in Hi. rewrite length_take. lia.
Qed.

(** The merge on a cut document. *)
Lemma apply_on_cut text section_name new_content A h body Z :
  section_cut section_name (split_nl text) A h body Z ->
  apply_patch_to_section text section_name new_content
  = join_nl (A ++ h :: body ++ insertion body new_content ++ Z).
Proof.
  intros Hcut. pose proof Hcut as (Hsplit & _ & Hh & _ & HZ).
  destruct (section_cut_find _ _ _ _ _ _ Hcut) as (_ & HA & Hbody & _).
  by apply apply_on_lines.
Qed.

(** The reading on a cut document. *)
Lemma extract_on_cut text section_name A h body Z :
  section_cut section_name (split_nl text) A h body Z ->
  extract_section text section_name = join_nl (trim blank body).
Proof.
  intros Hcut. pose proof Hcut as (_ & _ & _ & _ & HZ).
  destruct (section_cut_find _ _ _ _ _ _ Hcut) as (Hf & _ & Hbody & Hdrop).
  rewrite (extract_section_body _ _ _ Hf), Hdrop.
  by rewrite section_body_closed_rest.
Qed.

Lemma no_section_header_find section_name lines :
  Forall (fun l => is_section_header section_name l = false) lines ->
  find_section section_name lines = None.
Proof. intros Hno. apply find_index_none. by apply forallb_negb_Forall. Qed.

(** The lines of the result of a merge on a cut document. *)
Lemma apply_on_cut_lines text section_name new_content A h body Z :
  section_cut section_name (split_nl text) A h body Z ->
  split_nl (apply_patch_to_section text section_name new_content)
  = A ++ h :: body ++ insertion body new_content ++ Z.
Proof.
  intros Hcut. rewrite (apply_on_cut _ _ _ A h body Z) by done.
  destruct (section_cut_no_newline _ _ _ _ _ _ Hcut) as (HnA & Hnh & Hnb & HnZ).
  apply split_join_lines; [by destruct A|].
  apply Forall_app. split; [done|]. apply Forall_cons. split; [done|].
  apply Forall_app. split; [done|].
  apply Forall_app. split; [apply insertion_no_newline|done].
Qed.

(** C5: on a document cut around the target section, for a patch that
    goes to the prose rule (it does not occur in the section as one run,
    and without its surrounding whitespace it does not begin with the
    bullet marker): when some non-blank line of the patch equals, after
    trimming, some non-blank line of the section, the merge returns the
    document unchanged; otherwise the result is the document in which all
    the lines of the patch, verbatim, follow the lines of the section,
    after one blank line exactly when the last line of the section is not
    blank, and before the lines that followed the section. *)
Theorem prose_all_or_nothing markdown section_name new_content A h body Z :
  section_cut section_name (split_nl markdown) A h body Z ->
  contains (strip new_content) (strip (join_nl body)) = false ->
  startswith (strip new_content) bullet = false ->
  ((exists l, l ∈ nonblank_trimmed (split_nl new_content)
              /\ l ∈ nonblank_trimmed body) ->
   apply_patch_to_section markdown section_name new_content = markdown)
  /\ (~ (exists l, l ∈ nonblank_trimmed (split_nl new_content)
                   /\ l ∈ nonblank_trimmed body) ->
      apply_patch_to_section markdown section_name new_content
      = join_nl (A ++ h :: body ++ separator body ++ split_nl new_content
                 ++ Z)).
Proof.
  intros Hcut Hc Hb.
  destruct (section_cut_no_newline _ _ _ _ _ _ Hcut) as (_ & _ & Hnb & _).
  rewrite (apply_on_cut _ _ _ A h body Z) by done.
  unfold insertion, rejected. rewrite Hc, Hb. simpl.
  pose proof (prose_duplicate_body new_content body Hnb) as Hprose.
  split.
  - intros Hshared. apply Hprose in Hshared. rewrite Hshared. simpl.
    destruct Hcut as (Hsplit & _). by rewrite <- Hsplit, join_split.
  - intros Hnone.
    destruct (prose_duplicate (strip new_content) (strip (join_nl body)))
      eqn:Hp.
    + exfalso. apply Hnone. by apply Hprose.
    + rewrite separator_spec. by rewrite <- !(assoc_L (++)).
Qed.

(** C8: [extract_section] gives the same result for names that are equal
    after lower-casing each character; it returns the empty string when no
    line of the document is a header of the name; and on a document cut
    around the section, however the lines of the section are written as
    blank lines, kept lines and blank lines, where the kept lines neither
    begin nor end with a blank line, it returns the kept lines joined by
    newlines, blank lines among them included. *)
Theorem extract_section_semantics markdown section_name :
  (forall section_name',
     map tolower section_name' = map tolower section_name ->
     extract_section markdown section_name'
     = extract_section markdown section_name)
  /\ (Forall (fun l => is_section_header section_name l = false)
             (split_nl markdown) ->
      extract_section markdown section_name = [])
  /\ (forall A h body Z leading kept trailing,
        section_cut section_name (split_nl markdown) A h body Z ->
        body = leading ++ kept ++ trailing ->
        Forall (fun l => forallb isspace l = true) leading ->
        Forall (fun l => forallb isspace l = true) trailing ->
        tight (forallb isspace) kept ->
        extract_section markdown section_name = join_nl kept).
Proof.
  split; [|split].
  - intros section_name' Hc. unfold extract_section.
    by rewrite (find_section_casing section_name section_name').
  - intros Hno. unfold extract_section.
    by rewrite no_section_header_find.
  - intros A h body Z leading kept trailing Hcut -> Hl Ht Hk.
    rewrite (extract_on_cut _ _ A h _ Z Hcut). f_equal.
    rewrite trim_blank. apply trim_unique; [| |done].
    + by apply forallb_true_Forall.
    + by apply forallb_true_Forall.
Qed.

End OnCut.

(** * Frame of the merge *)

Section FrameOnCut.
Context `{Casing}.

(** C7, amended: the merge keeps every line of the document, in order,
    and only adds lines.  On a document cut around the target section,
    the lines of the result are the lines before the header, the header,
    the lines of the section, added lines (none when the patch is
    rejected, else the separator and the lines of the patch), and the
    lines that followed the section.  When no line is a header of the
    name (a name without a newline), they are the lines of the document
    followed by the separator, the new header, a blank line and the lines
    of the patch.  When moreover no line of the patch is a header line,
    every section under another header reads back as before. *)
Theorem merge_frame markdown section_name new_content :
  (forall A h body Z,
     section_cut section_name (split_nl markdown) A h body Z ->
     exists added,
       split_nl (apply_patch_to_section markdown section_name new_content)
       = A ++ h :: body ++ added ++ Z
       /\ (added = [] \/ added = separator body ++ split_nl new_content))
  /\ (Forall (fun l => is_section_header section_name l = false)
             (split_nl markdown) ->
      NL ∉ section_name ->
      split_nl (apply_patch_to_section markdown section_name new_content)
      = split_nl markdown ++ separator (split_nl markdown)
        ++ (HASH :: HASH :: SPACE :: section_name) :: []
           :: split_nl new_content)
  /\ (NL ∉ section_name ->
      Forall (fun l => is_header l = false) (split_nl new_content) ->
      forall other A' h' body' Z',
        section_cut other (split_nl markdown) A' h' body' Z' ->
        (forall A h body Z,
           section_cut section_name (split_nl markdown) A h body Z ->
           length A <> length A') ->
        extract_section
          (apply_patch_to_section markdown section_name new_content) other
        = extract_section markdown other).
Proof.
  split; [|split].
  - intros A h body Z Hcut. exists (insertion body new_content).
    split; [by apply apply_on_cut_lines|].
    unfold insertion. destruct (rejected body new_content); [by left|].
    right. by rewrite separator_spec.
  - intros Hno HS.
    assert (~ has_section markdown section_name) as Habsent.
    { unfold has_section. rewrite no_section_header_find by done.
      by intros [x Hx]. }
    rewrite (apply_patch_absent _ _ _ Habsent), created_lines by done.
    by rewrite separator_spec.
  - intros HS HP other A' h' body' Z' Hcut' Hdiff.
    destruct (section_cut_find _ _ _ _ _ _ Hcut') as (Hj & _).
    destruct (find_section section_name (split_nl markdown)) as [i|] eqn:Hi.
    + destruct (section_cut_of_find _ _ _ Hi) as (A & h & body & Z & Hcut & HA).
      specialize (Hdiff _ _ _ _ Hcut).
      assert (has_section markdown section_name) as Hsec.
      { unfold has_section. by rewrite Hi. }
      rewrite apply_patch_present by done.
      destruct (_ || _); [done|].
      apply (extract_section_appended _ _ _ _ i (length A')); try done. lia.
    + assert (~ has_section markdown section_name) as Habsent.
      { unfold has_section. rewrite Hi. by intros [x Hx]. }
      rewrite (apply_patch_absent _ _ _ Habsent).
      by apply (extract_section_created _ _ _ _ (length A')).
Qed.

End FrameOnCut.

(** * An accepted bullet patch *)

Section BulletsOnCut.
Context `{Casing}.

Lemma tests_fail_no_duplicate new_item existing_item :
  tests_fail new_item existing_item ->
  item_duplicate new_item existing_item = false.
Proof.
  intros (Hexact & Hname & Hsim). unfold item_duplicate, exact_match, name_match.
  rewrite (bool_decide_eq_false_2 _ Hexact). simpl.
  assert (bool_decide (lower (item_name new_item)
                       = lower (item_name existing_item))
          && (2 <? length (item_name new_item)) = false) as ->.
  { destruct Hname as [Hne|Hlen].
    - by rewrite (bool_decide_eq_false_2 _ Hne).
    - apply Nat.ltb_ge in Hlen. rewrite Hlen. apply andb_false_r. }
  simpl.
  destruct (Nat.ltb_spec 10 (length new_item)) as [Hn|Hn].
  2:{ unfold similarity_match. apply Nat.ltb_ge in Hn. by rewrite Hn. }
  destruct (Nat.ltb_spec 10 (length existing_item)) as [He|He].
  2:{ unfold similarity_match. apply Nat.ltb_ge in He. rewrite He.
      by rewrite andb_false_r. }
  destruct Hsim as [Hlen|[Hlen|[Hbound Hj]]]; [lia..|].
  destruct (similarity_match new_item existing_item) eqn:Hs; [|done].
  exfalso. apply (similarity_match_spec _ _ Hn He Hbound) in Hs.
  by apply Qlt_not_le in Hs.
Qed.

(** X3: on a document cut around the target section, for a patch that
    goes to the bullet rules (it does not occur in the section as one
    run, and without its surrounding whitespace it begins with the bullet
    marker): when for every bullet item of the patch and every bullet
    item of the section the item texts differ after lower-casing, the
    names differ after lower-casing or the incoming name has at most 2
    characters, and one of the two items has at most 10 characters or the
    Jaccard similarity of their word sets is at most 4/5, the result is
    the document in which all the lines of the patch, verbatim, follow
    the lines of the section, after one blank line exactly when the last
    line of the section is not blank, and before the lines that followed
    the section. *)
Theorem bullet_patch_appended markdown section_name new_content A h body Z :
  section_cut section_name (split_nl markdown) A h body Z ->
  contains (strip new_content) (strip (join_nl body)) = false ->
  startswith (strip new_content) bullet = true ->
  (forall new_line line new_item existing_item,
     new_line ∈ split_nl (strip new_content) ->
     bullet_item new_line = Some new_item ->
     line ∈ body ->
     bullet_item line = Some existing_item ->
     tests_fail new_item existing_item) ->
  apply_patch_to_section markdown section_name new_content
  = join_nl (A ++ h :: body ++ separator body ++ split_nl new_content ++ Z).
Proof.
  intros Hcut Hc Hb Hpairs.
  rewrite (apply_on_cut _ _ _ A h body Z) by done.
  unfold insertion, rejected. rewrite Hc, Hb. simpl.
  destruct (bullet_duplicate (split_nl (strip new_content)) body) eqn:Hdup.
  - exfalso.
    apply bullet_duplicate_elim in Hdup
      as (new_line & line & new_item & existing_item
          & Hn & Hni & Hl & Hei & Hd).
    rewrite (tests_fail_no_duplicate new_item existing_item) in Hd; [done|].
    by apply (Hpairs new_line line).
  - rewrite separator_spec. by rewrite <- !(assoc_L (++)).
Qed.

End BulletsOnCut.

(** C7, as worded, fails: a patch that carries the header line of another
    section puts a second section of that name before the first one, and
    the other section no longer reads as it did. *)
Lemma shadowed_section_counterexample :
  extract_section doc_ab (py "B") = py "y"
  /\ extract_section
       (apply_patch_to_section doc_ab (py "A") shadow_patch) (py "B")
     = py "z"
  /\ header_lines doc_ab = [py "## A"; py "## B"]
  /\ header_lines (apply_patch_to_section doc_ab (py "A") shadow_patch)
     = [py "## A"; py "## B"; py "## B"].
Proof. repeat split; by_eval. Qed.

(** * Instances on cut documents *)

Lemma prose_all_or_nothing_witness :
  apply_patch_to_section doc_setting (py "Setting") village_patch = doc_setting
  /\ apply_patch_to_section doc_ab (py "A") harbour_patch
     = py "## A" ++ nl ++ py "x" ++ nl ++ nl ++ harbour_patch ++ nl
       ++ py "## B" ++ nl ++ py "y".
Proof.
  split.
  - apply (prose_all_or_nothing doc_setting (py "Setting") village_patch
             [] (py "## Setting") [[]; py "A quiet village by the sea."] []).
    + cut_by_eval.
    + by_eval.
    + by_eval.
    + exists (py "A quiet village by the sea."). split; by_decide.
  - destruct (prose_all_or_nothing doc_ab (py "A") harbour_patch
                [] (py "## A") [py "x"] [py "## B"; py "y"]) as [_ Happended].
    + cut_by_eval.
    + by_eval.
    + by_eval.
    + rewrite Happended; [by_eval|]. apply no_shared_line. by_eval.
Defined.

Lemma merge_frame_witness :
  (exists added,
     split_nl (apply_patch_to_section doc_story (py "Characters") zara_patch)
     = [] ++ py "## Characters" :: [[]; max_line; []] ++ added
       ++ [py "## Setting"; []; py "A quiet village by the sea."]
     /\ (added = []
         \/ added = separator [[]; max_line; []] ++ split_nl zara_patch))
  /\ split_nl (apply_patch_to_section doc_setting (py "Ideas-Notes")
                 (py "A talking cat appears."))
     = split_nl doc_setting ++ separator (split_nl doc_setting)
       ++ (HASH :: HASH :: SPACE :: py "Ideas-Notes") :: []
          :: split_nl (py "A talking cat appears.")
  /\ extract_section
       (apply_patch_to_section doc_story (py "Characters") zara_patch)
       (py "Setting")
     = extract_section doc_story (py "Setting").
Proof.
  split; [|split].
  - apply (proj1 (merge_frame doc_story (py "Characters") zara_patch)).
    cut_by_eval.
  - apply (proj1 (proj2 (merge_frame doc_setting (py "Ideas-Notes")
                           (py "A talking cat appears.")))).
    + by_decide.
    + by_decide.
  - apply (proj2 (proj2 (merge_frame doc_story (py "Characters") zara_patch)))
      with (A' := [py "## Characters"; []; max_line; []])
           (h' := py "## Setting")
           (body' := [[]; py "A quiet village by the sea."])
           (Z' := []).
    + by_decide.
    + by_decide.
    + cut_by_eval.
    + intros A h body Z Hcut.
      destruct (section_cut_find _ _ _ _ _ _ Hcut) as (Hfind & _).
      assert (find_section (py "Characters") (split_nl doc_story) = Some 0)
        as Hfirst by by_eval.
      rewrite Hfirst in Hfind. injection Hfind as <-. simpl. lia.
Defined.

Lemma extract_section_semantics_witness :
  extract_section doc_notes (py "NOTES") = extract_section doc_notes (py "Notes")
  /\ extract_section doc_notes (py "Plot") = []
  /\ extract_section doc_notes (py "Notes")
     = py "first" ++ nl ++ py " " ++ nl ++ py "second".
Proof.
  split; [|split].
  - apply (proj1 (extract_section_semantics doc_notes (py "Notes"))).
    by_eval.
  - apply (proj1 (proj2 (extract_section_semantics doc_notes (py "Plot")))).
    by_decide.
  - apply (proj2 (proj2 (extract_section_semantics doc_notes (py "Notes")))
             [py "# Title"] (py "## Notes")
             [[]; py "first"; py " "; py "second"; []] [py "## End"; py "z"]
             [[]] [py "first"; py " "; py "second"] [[]]).
    + cut_by_eval.
    + by_eval.
    + by_decide.
    + by_decide.
    + split; by_eval.
Defined.

Lemma bullet_patch_appended_witness :
  apply_patch_to_section doc_tight (py "Characters") zara_patch
  = py "## Characters" ++ nl ++ max_line ++ nl ++ nl ++ zara_patch ++ nl
    ++ doc_setting.
Proof.
  rewrite (bullet_patch_appended doc_tight (py "Characters") zara_patch
             [] (py "## Characters") [max_line]
             [py "## Setting"; []; py "A quiet village by the sea."]).
  - by_eval.
  - cut_by_eval.
  - by_eval.
  - by_eval.
  - intros new_line line new_item existing_item Hn Hni Hl Hei.
    assert (new_line = zara_patch) as ->.
    { apply list_elem_of_In in Hn. vm_compute in Hn. by destruct Hn. }
    assert (line = max_line) as ->.
    { apply list_elem_of_In in Hl. vm_compute in Hl. by destruct Hl. }
    assert (new_item = zara_item) as ->.
    { vm_compute in Hni. by injection Hni as <-. }
    assert (existing_item = max_item) as ->.
    { vm_compute in Hei. by injection Hei as <-. }
    split; [vm_compute; discriminate|split].
    + left. vm_compute. discriminate.
    + right. right. split; [by_eval|vm_compute; discriminate].
Defined.

(** * The service on texts that can or cannot be encoded *)

Lemma forallb_split_char (p : N -> bool) d s :
  forallb p s = true ->
  Forall (fun l => forallb p l = true) (split_char d s).
Proof.
  induction s as [|c s IH]; simpl; [by repeat constructor|].
  intros [Hc Hs]%andb_prop. specialize (IH Hs).
  destruct (c =? d)%N; [by constructor|].
  destruct (split_char d s) as [|l ls].
  - repeat constructor. simpl. by rewrite Hc.
  - apply Forall_cons in IH as [Hl Hls]. constructor; [|done].
    simpl. by rewrite Hc.
Qed.

Lemma forallb_join_nl (p : N -> bool) ls :
  p NL = true ->
  Forall (fun l => forallb p l = true) ls ->
  forallb p (join_nl ls) = true.
Proof.
  intros Hnl. induction 1 as [|l ls Hl Hls IH]; [done|].
  destruct ls as [|l' ls]; [done|].
  rewrite join_nl_cons by done. rewrite forallb_app, Hl.
  cbn [forallb andb]. by rewrite Hnl, IH.
Qed.

Section Encodable.
Context `{Casing}.

(** The merge of texts that can be encoded can be encoded. *)
Lemma apply_patch_encodable markdown section_name new_content :
  utf8_encodable markdown = true ->
  utf8_encodable section_name = true ->
  utf8_encodable new_content = true ->
  utf8_encodable (apply_patch_to_section markdown section_name new_content)
  = true.
Proof.
  intros HD HS HP.
  destruct (find_section section_name (split_nl markdown)) as [i|] eqn:Hi.
  - destruct (section_cut_of_find _ _ _ Hi) as (A & h & body & Z & Hcut & _).
    rewrite (apply_on_cut _ _ _ A h body Z) by done.
    destruct Hcut as (Hsplit & _).
    pose proof (forallb_split_char _ NL _ HD) as Hlines.
    fold (split_nl markdown) in Hlines. rewrite Hsplit in Hlines.
    apply Forall_app in Hlines as [HA Hlines].
    apply Forall_cons in Hlines as [Hh Hlines].
    apply Forall_app in Hlines as [Hbody HZ].
    apply forallb_join_nl; [done|].
    apply Forall_app. split; [done|]. apply Forall_cons. split; [done|].
    apply Forall_app. split; [done|]. apply Forall_app. split; [|done].
    unfold insertion. destruct (rejected body new_content); [done|].
    apply Forall_app. split.
    + destruct (last_line_nonblank body); by repeat constructor.
    + by apply forallb_split_char.
  - assert (~ has_section markdown section_name) as Hno.
    { unfold has_section. rewrite Hi. by intros [x Hx]. }
    rewrite (apply_patch_absent _ _ _ Hno), created_text.
    unfold utf8_encodable in *. rewrite forallb_app, HD. simpl.
    rewrite forallb_app. simpl. rewrite forallb_app, HS. simpl. rewrite HP.
    by destruct (last_line_nonblank _).
Qed.

Lemma save_returns markdown d :
  d <> Unusable -> utf8_encodable markdown = true ->
  save_markdown_to_database markdown d = (Returned, Rows (Some markdown)).
Proof. intros Hd Hm. destruct d; simpl; by rewrite ?Hm. Qed.

Lemma load_usable d : d <> Unusable -> snd (load_markdown d) <> Unusable.
Proof. by destruct d as [| |[m|]|]. Qed.

(** [accept_patch] when the save returns. *)
Lemma accept_patch_saved now patch w :
  db w <> Unusable ->
  utf8_encodable
    (apply_patch_to_section (fst (load_markdown (db w)))
       (section patch) (replace patch)) = true ->
  accept_patch now patch w
  = (if utf8_encodable (proposal_text patch)
     then Ok (py "applied", section patch) else HttpError 500,
     {| db := Rows (Some (apply_patch_to_section (fst (load_markdown (db w)))
                            (section patch) (replace patch)));
        last_update_file := Text (str_of_int now);
        proposal_file :=
          Some (if utf8_encodable (proposal_text patch)
                then proposal_text patch else []) |}).
Proof.
  intros Hdb Henc. unfold accept_patch.
  pose proof (load_usable _ Hdb) as Hd.
  destruct (load_markdown (db w)) as [m d]. cbn [fst snd] in *.
  rewrite save_returns by done.
  by destruct (utf8_encodable (proposal_text patch)).
Qed.

Lemma get_last_updated_text d now p :
  get_last_updated
    {| db := d; last_update_file := Text (str_of_int now);
       proposal_file := p |}
  = str_of_int now.
Proof.
  unfold get_last_updated. simpl.
  rewrite universal_newlines_no_space by apply str_of_int_no_space.
  apply strip_no_space, str_of_int_no_space.
Qed.

Lemma proposal_text_encodable patch :
  utf8_encodable (section patch) = true ->
  utf8_encodable (replace patch) = true ->
  utf8_encodable (proposal_text patch)
  = utf8_encodable (default [] (h2 patch)).
Proof.
  intros HS HP. unfold proposal_text, utf8_encodable in *.
  rewrite !forallb_app, HS, HP. simpl. rewrite andb_true_r.
  destruct (h2 patch) as [[|c h]|]; done.
Qed.

(** X14: when the database can be written and the stored document and
    the section, sub-header and content of the request can be encoded,
    [accept_patch] answers ["applied"] with the section of the request,
    also when the merge returned the document unchanged; afterwards the
    document loaded is the merge of the patch into the document loaded
    before, the last-updated value is the current time, and the proposal
    file holds the header ["### section / sub-header"] (["(root)"] for a
    missing or empty sub-header), a blank line and the content. *)
Theorem accept_patch_applied now patch w :
  db w <> Unusable ->
  utf8_encodable (fst (load_markdown (db w))) = true ->
  utf8_encodable (section patch) = true ->
  utf8_encodable (default [] (h2 patch)) = true ->
  utf8_encodable (replace patch) = true ->
  fst (accept_patch now patch w) = Ok (py "applied", section patch)
  /\ load_markdown (db (snd (accept_patch now patch w)))
     = (apply_patch_to_section (fst (load_markdown (db w)))
          (section patch) (replace patch),
        db (snd (accept_patch now patch w)))
  /\ get_last_updated (snd (accept_patch now patch w)) = str_of_int now
  /\ proposal_file (snd (accept_patch now patch w))
     = Some (py "### " ++ section patch ++ py " / "
             ++ (if truthy (default [] (h2 patch))
                 then default [] (h2 patch) else py "(root)")
             ++ nl ++ nl ++ replace patch).
Proof.
  intros Hdb HD HS Hh HP.
  rewrite accept_patch_saved by (done || by apply apply_patch_encodable).
  rewrite proposal_text_encodable, Hh by done. simpl.
  split; [done|split; [done|split; [apply get_last_updated_text|]]].
  unfold proposal_text. by destruct (h2 patch) as [[|c h]|].
Qed.

(** X21: when only the sub-header of the request cannot be encoded,
    [accept_patch] answers 500 although the request has taken effect: the
    merged document is stored, the last-updated value is the current
    time, and the proposal file is left empty. *)
Theorem accept_patch_proposal_failure now patch w :
  db w <> Unusable ->
  utf8_encodable (fst (load_markdown (db w))) = true ->
  utf8_encodable (section patch) = true ->
  utf8_encodable (replace patch) = true ->
  utf8_encodable (default [] (h2 patch)) = false ->
  fst (accept_patch now patch w) = HttpError 500
  /\ load_markdown (db (snd (accept_patch now patch w)))
     = (apply_patch_to_section (fst (load_markdown (db w)))
          (section patch) (replace patch),
        db (snd (accept_patch now patch w)))
  /\ get_last_updated (snd (accept_patch now patch w)) = str_of_int now
  /\ proposal_file (snd (accept_patch now patch w)) = Some [].
Proof.
  intros Hdb HD HS HP Hh.
  rewrite accept_patch_saved by (done || by apply apply_patch_encodable).
  rewrite proposal_text_encodable, Hh by done. simpl.
  split; [done|split; [done|split; [apply get_last_updated_text|done]]].
Qed.

(** X16: [upload_project_content] with no markdown or an empty one
    answers 500 (the 400 it raises is caught by its own handler) and
    changes nothing.  With a non-empty markdown that can be encoded, on a
    database that can be written, it answers the length of the markdown,
    moves the last-updated value to the current time, and
    [get_project_section] then reads every section from the uploaded
    markdown without changing anything.  With a markdown that cannot be
    encoded, or on a database on which every statement raises, it answers
    500, the two files are as before, and the document that
    [load_markdown] returns is the one it returned before. *)
Theorem upload_project_content_behaviour now content w :
  (default [] content = [] ->
   upload_project_content now content w = (HttpError 500, w))
  /\ (forall markdown,
        content = Some markdown -> markdown <> [] ->
        (db w <> Unusable -> utf8_encodable markdown = true ->
         fst (upload_project_content now content w) = Ok (length markdown)
         /\ get_last_updated (snd (upload_project_content now content w))
            = str_of_int now
         /\ forall section_name,
              get_project_section section_name
                (snd (upload_project_content now content w))
              = (Ok (extract_section markdown section_name),
                 snd (upload_project_content now content w)))
        /\ (utf8_encodable markdown = false \/ db w = Unusable ->
            fst (upload_project_content now content w) = HttpError 500
            /\ last_update_file (snd (upload_project_content now content w))
               = last_update_file w
            /\ proposal_file (snd (upload_project_content now content w))
               = proposal_file w
            /\ fst (load_markdown
                      (db (snd (upload_project_content now content w))))
               = fst (load_markdown (db w)))).
Proof.
  split.
  - intros Hempty. unfold upload_project_content. by rewrite Hempty.
  - intros markdown -> Hne. unfold upload_project_content. simpl.
    destruct markdown as [|c markdown]; [done|]. cbn [truthy negb].
    split.
    + intros Hdb Henc. rewrite save_returns by done. simpl.
      split; [done|split; [apply get_last_updated_text|done]].
    + intros [Henc| Hdb].
      * destruct (db w) as [| |[m|]|]; unfold save_markdown_to_database;
          rewrite ?Henc; done.
      * rewrite Hdb. done.
Qed.

(** X20: when the database can be written and the stored document and
    the section and content of the request can be encoded, a request made
    a second time (section name without a newline, patch none of whose
    lines is a header line) gets the answer of the first and leaves the
    stored document as the first request left it; only the last-updated
    value moves, to the time of the second request. *)
Theorem accept_patch_repeated now now' patch w :
  db w <> Unusable ->
  utf8_encodable (fst (load_markdown (db w))) = true ->
  utf8_encodable (section patch) = true ->
  utf8_encodable (replace patch) = true ->
  NL ∉ section patch ->
  Forall (fun l => is_header l = false) (split_nl (replace patch)) ->
  fst (accept_patch now' patch (snd (accept_patch now patch w)))
  = fst (accept_patch now patch w)
  /\ db (snd (accept_patch now' patch (snd (accept_patch now patch w))))
     = db (snd (accept_patch now patch w))
  /\ get_last_updated
       (snd (accept_patch now' patch (snd (accept_patch now patch w))))
     = str_of_int now'.
Proof.
  intros Hdb HD HS HP Hname Hpatch.
  set (updated := apply_patch_to_section (fst (load_markdown (db w)))
                    (section patch) (replace patch)).
  assert (utf8_encodable updated = true) as Henc
    by (by apply apply_patch_encodable).
  assert (apply_patch_to_section updated (section patch) (replace patch)
          = updated) as Hagain.
  { by apply settled_unchanged, settled_after_merge. }
  rewrite (accept_patch_saved now patch w) by done. fold updated. simpl.
  rewrite accept_patch_saved; simpl; rewrite ?Hagain; try done.
  split; [done|split; [done|apply get_last_updated_text]].
Qed.

End Encodable.

Lemma accept_patch_applied_witness :
  fst (accept_patch 1700000000 zara_request world_story)
  = Ok (py "applied", py "Characters")
  /\ fst (load_markdown
            (db (snd (accept_patch 1700000000 zara_request world_story))))
     = doc_characters ++ nl ++ nl ++ zara_patch ++ nl ++ doc_setting
  /\ get_last_updated (snd (accept_patch 1700000000 zara_request world_story))
     = py "1700000000"
  /\ proposal_file (snd (accept_patch 1700000000 zara_request world_story))
     = Some (py "### Characters / (root)" ++ nl ++ nl ++ zara_patch).
Proof.
  destruct (accept_patch_applied 1700000000 zara_request world_story)
    as (Hanswer & Hload & Htime & Hfile).
  - done.
  - by_eval.
  - by_eval.
  - by_eval.
  - by_eval.
  - rewrite Hanswer, Hload, Htime, Hfile. repeat split; by_eval.
Defined.

Lemma accept_patch_proposal_failure_witness :
  fst (accept_patch 1700000000 surrogate_request world_story) = HttpError 500
  /\ fst (load_markdown
            (db (snd (accept_patch 1700000000 surrogate_request world_story))))
     = doc_characters ++ nl ++ nl ++ zara_patch ++ nl ++ doc_setting
  /\ get_last_updated
       (snd (accept_patch 1700000000 surrogate_request world_story))
     = py "1700000000"
  /\ proposal_file
       (snd (accept_patch 1700000000 surrogate_request world_story))
     = Some [].
Proof.
  destruct (accept_patch_proposal_failure 1700000000 surrogate_request
              world_story) as (Hanswer & Hload & Htime & Hfile).
  - done.
  - by_eval.
  - by_eval.
  - by_eval.
  - by_eval.
  - rewrite Hanswer, Hload, Htime, Hfile. repeat split; by_eval.
Defined.

Lemma upload_project_content_behaviour_witness :
  upload_project_content 1700000000 None world_story
  = (HttpError 500, world_story)
  /\ fst (upload_project_content 1700000000 (Some doc_setting) world_story)
     = Ok 39
  /\ fst (get_project_section (py "setting")
            (snd (upload_project_content 1700000000 (Some doc_setting)
                    world_story)))
     = Ok (py "A quiet village by the sea.")
  /\ fst (upload_project_content 1700000000 (Some [55296%N]) world_story)
     = HttpError 500
  /\ get_last_updated
       (snd (upload_project_content 1700000000 (Some [55296%N]) world_story))
     = py "0".
Proof.
  split; [|split; [|split; [|split]]].
  - apply (proj1 (upload_project_content_behaviour 1700000000 None
                    world_story)). done.
  - destruct (proj2 (upload_project_content_behaviour 1700000000
                       (Some doc_setting) world_story) doc_setting)
      as [Hsaved _]; [done|done|].
    destruct Hsaved as (Hanswer & _); [done|by_eval|].
    rewrite Hanswer. by_eval.
  - destruct (proj2 (upload_project_content_behaviour 1700000000
                       (Some doc_setting) world_story) doc_setting)
      as [Hsaved _]; [done|done|].
    destruct Hsaved as (_ & _ & Hread); [done|by_eval|].
    rewrite Hread. by_eval.
  - destruct (proj2 (upload_project_content_behaviour 1700000000
                       (Some [55296%N]) world_story) [55296%N])
      as [_ Hfailed]; [done|done|].
    destruct Hfailed as (Hanswer & _); [left; by_eval|done].
  - destruct (proj2 (upload_project_content_behaviour 1700000000
                       (Some [55296%N]) world_story) [55296%N])
      as [_ Hfailed]; [done|done|].
    destruct Hfailed as (_ & Hfile & _); [left; by_eval|].
    unfold get_last_updated. rewrite Hfile. by_eval.
Defined.

Lemma accept_patch_repeated_witness :
  fst (accept_patch 1700000060 zara_request
         (snd (accept_patch 1700000000 zara_request world_story)))
  = Ok (py "applied", py "Characters")
  /\ db (snd (accept_patch 1700000060 zara_request
                (snd (accept_patch 1700000000 zara_request world_story))))
     = Rows (Some (doc_characters ++ nl ++ nl ++ zara_patch ++ nl
                   ++ doc_setting))
  /\ get_last_updated
       (snd (accept_patch 1700000060 zara_request
               (snd (accept_patch 1700000000 zara_request world_story))))
     = py "1700000060".
Proof.
  destruct (accept_patch_repeated 1700000000 1700000060 zara_request
              world_story) as (Hanswer & Hdb & Htime).
  - done.
  - by_eval.
  - by_eval.
  - by_eval.
  - by_decide.
  - by_decide.
  - rewrite Hanswer, Hdb, Htime. repeat split; by_eval.
Defined.
